(** * Flag value adapters of [pkg/cmdutil/flags.go]

    A shallow embedding of the Go package [cmdutil]: the five flag values
    ([stringValue], [boolValue], [regexpValue], [enumValue],
    [enumMultiValue]), their [Set]/[String]/[Type] methods, the helper
    [isIncluded], [formatValuesForUsageDocs] and the five flag constructors,
    followed by the properties the specification states about them.

    Conventions of the embedding.
    - A Go [string] is a sequence of bytes: Rocq's [string], one [ascii]
      per byte.
    - A pointer carries what it points to: a field of type [*T] is a
      [ptr T], either [nil] or [addr x] where [x] is the current content
      of the location.  A method that writes through a pointer of its
      receiver returns the receiver with the new content; dereferencing
      [nil] is the run-time panic [Panic].
    - A method returning [error] returns [option error]: [None] is Go's
      [nil] error.
    - Names that Rocq reserves get an underscore: the methods [Set],
      [String] and [Type] are [Set_], [String_] and [Type_], and the
      fields called [string] and [bool] are [string_] and [bool_]. *)

From Stdlib Require Import String Ascii List NArith Bool Arith Lia.
Import ListNotations.
Open Scope list_scope.
Open Scope string_scope.

Set Implicit Arguments.

(** ** Run-time model: panics and pointers *)

Inductive exec (A : Type) : Type :=
| Done (a : A)
| Panic.
Arguments Panic {A}.

Definition bind {A B : Type} (m : exec A) (k : A -> exec B) : exec B :=
  match m with
  | Done a => k a
  | Panic => Panic
  end.

Notation "x <- m ;; k" := (bind m (fun x => k))
  (at level 61, m at next level, right associativity).

Inductive ptr (A : Type) : Type :=
| nil
| addr (pointee : A).
Arguments nil {A}.

(** [*p] as an expression. *)
Definition load {A : Type} (p : ptr A) : exec A :=
  match p with
  | nil => Panic
  | addr a => Done a
  end.

(** [*p = a]: the pointer with the new content of its location. *)
Definition store {A : Type} (p : ptr A) (a : A) : exec (ptr A) :=
  match p with
  | nil => Panic
  | addr _ => Done (addr a)
  end.

(** ** Bytes *)

Definition byte (c : ascii) : N := N_of_ascii c.
Definition quote : ascii := "034"%char.
Definition backslash : ascii := "092"%char.
Definition comma : ascii := ","%char.

(** [utf8.RuneSelf]: bytes below it are the ASCII characters. *)
Definition RuneSelf : N := 128.

(** The Unicode data of the Go run time that the package reaches through
    [strings.EqualFold] and through the verb [%q]: the case-folding orbits
    and the table of printable runes.  They are not part of this
    repository; the model takes what they decide as parameters.
    - [foldUnicode s t] is the result of [EqualFold]'s rune-by-rune loop
      (label [hasUnicode]) on the two suffixes that remain when the
      byte-wise loop meets a byte outside ASCII;
    - [quoteUnicode s] is what [strconv.Quote] appends for [s], the
      closing quote apart, when [s] starts with a byte outside ASCII. *)
Class UnicodeTables : Type := {
  foldUnicode : string -> string -> bool;
  quoteUnicode : string -> string
}.

(** The dynamic types of the errors the package returns: the
    [*errors.errorString] made by [fmt.Errorf] (no [%w] in its formats)
    and [errors.New], and [*strconv.NumError]. *)
Inductive error : Type :=
| errorString (s : string)
| NumError (Func Num : string) (Err : error).

(** The host library, cobra with pflag, as far as the package calls into
    it.  Its code is not part of this repository; the model takes what it
    does as parameters.
    - [Command] is a [*cobra.Command] with all it holds, its flag set and
      its completion functions among them.
    - [AddFlag cmd name shorthand] is [cmd.Flags().AddFlag(flag)] for a
      flag of that name and shorthand: the command with the flag entered
      and the name the flag set gives the flag, or the panic of the flag
      set, which refuses a name or a shorthand it already has and a
      shorthand of more than one byte.
    - [RegisterFlagCompletionFunc cmd name f] is the method of that name,
      with the error it returns; [f] takes the arguments and the text to
      complete. *)
Class Host : Type := {
  Command : Type;
  ShellCompDirective : Type;
  ShellCompDirectiveNoFileComp : ShellCompDirective;
  AddFlag : Command -> string -> string -> exec (Command * string);
  RegisterFlagCompletionFunc :
    Command -> string ->
    (list string -> string -> list string * ShellCompDirective) ->
    exec (Command * option error)
}.

(** ** Package [strings] *)

Module strings.

Section Fold.
Context {tables : UnicodeTables}.

(** [strings.EqualFold]: the byte-wise loop over ASCII, which hands over
    to the rune-by-rune loop at the first byte outside ASCII. *)
Fixpoint EqualFold (s t : string) : bool :=
  match s, t with
  | String sc s', String tc t' =>
      let sr := byte sc in
      let tr := byte tc in
      if (RuneSelf <=? N.lor sr tr)%N then foldUnicode s t
      else if (tr =? sr)%N then EqualFold s' t'
      else
        let (sr, tr) := if (tr <? sr)%N then (tr, sr) else (sr, tr) in
        if ((byte "A" <=? sr) && (sr <=? byte "Z")
            && (tr =? (sr + byte "a" - byte "A") mod 256))%N
        then EqualFold s' t'
        else false
  | EmptyString, EmptyString => true
  | _, _ => false
  end.

End Fold.

(** [strings.Split(s, sep)] for a separator of one byte, which is how the
    package calls it: the pieces of [s] between the occurrences of [sep],
    in order, empty pieces included. *)
Fixpoint Split (s : string) (sep : ascii) : list string :=
  match s with
  | EmptyString => [EmptyString]
  | String c s' =>
      if Ascii.eqb c sep then EmptyString :: Split s' sep
      else
        match Split s' sep with
        | item :: items => String c item :: items
        | [] => [String c EmptyString]
        end
  end.

(** [strings.Join]: nothing for no element, the element itself for one,
    and otherwise the first element followed by [sep] and the next
    element, for each of the others in turn. *)
Definition Join (elems : list string) (sep : string) : string :=
  match elems with
  | [] => ""
  | [e] => e
  | e :: rest => fold_left (fun b s => b ++ sep ++ s) rest e
  end.

End strings.

(** ** Package [strconv] *)

Module strconv.

Definition ErrSyntax : error := errorString "invalid syntax".

Definition syntaxError (fn str : string) : error := NumError fn str ErrSyntax.

Definition trueForms : list string := ["1"; "t"; "T"; "true"; "TRUE"; "True"].
Definition falseForms : list string := ["0"; "f"; "F"; "false"; "FALSE"; "False"].

(** [case a, b, c:] of a [switch] on a string. *)
Definition oneOf (str : string) (cases : list string) : bool :=
  existsb (String.eqb str) cases.

Definition ParseBool (str : string) : bool * option error :=
  if oneOf str trueForms then (true, None)
  else if oneOf str falseForms then (false, None)
  else (false, Some (syntaxError "ParseBool" str)).

Definition lowerhex : string := "0123456789abcdef".

Definition hex (n : N) : string :=
  match get (N.to_nat n) lowerhex with
  | Some c => String c ""
  | None => ""
  end.

(** [strconv.IsPrint] on ASCII: space up to [~]. *)
Definition IsPrint (r : N) : bool := ((32 <=? r) && (r <=? 126))%N.

(** [appendEscapedRune] for an ASCII rune inside double quotes: what it
    appends. *)
Definition escapedRune (c : ascii) : string :=
  let r := byte c in
  if ((r =? byte quote) || (r =? byte backslash))%N then String backslash (String c "")
  else if IsPrint r then String c ""
  else
    match r with
    | 7%N => String backslash "a"
    | 8%N => String backslash "b"
    | 12%N => String backslash "f"
    | 10%N => String backslash "n"
    | 13%N => String backslash "r"
    | 9%N => String backslash "t"
    | 11%N => String backslash "v"
    | _ => String backslash "x" ++ hex (N.shiftr r 4) ++ hex (N.land r 15)
    end.

Section Quote.
Context {tables : UnicodeTables}.

(** The loop of [appendQuotedWith]: rune after rune of [s], escaped. *)
Fixpoint quoted (s : string) : string :=
  match s with
  | EmptyString => ""
  | String c s' =>
      if (byte c <? RuneSelf)%N then escapedRune c ++ quoted s'
      else quoteUnicode s
  end.

(** [strconv.Quote], which is the verb [%q] of [fmt] on a string. *)
Definition Quote (s : string) : string :=
  String quote (quoted s ++ String quote "").

End Quote.

End strconv.

(** ** Package [regexp] *)

Module regexp.

(** A compiled pattern, by the set of strings it matches. *)
Record Regexp : Type := Compile { MatchString : string -> bool }.

End regexp.

(** ** Package [pflag]: what the adapters plug into *)

Module pflag.

(** The interface [pflag.Value]. *)
Class Value (V : Type) : Type := {
  Set_ : V -> string -> exec (V * option error);
  String_ : V -> exec string;
  Type_ : V -> string
}.

(** The fields of [pflag.Flag] that [VarPF] and this package fill in. *)
Record Flag (V : Type) : Type := mkFlag {
  Name : string;
  Shorthand : string;
  Usage : string;
  Val : V;
  DefValue : string;
  NoOptDefVal : string
}.

Section VarPF.
Context {host : Host}.

(** [cmd.Flags().VarPF]: it builds the flag, whose default-value text is
    the value's [String()] at that moment, enters it into the flag set
    with [AddFlag], which gives the flag its name, and returns it. *)
Definition VarPF {V : Type} {methods : Value V}
    (cmd : Command) (value : V) (name shorthand usage : string)
  : exec (Command * Flag V) :=
  def <- String_ value;;
  r <- AddFlag cmd name shorthand;;
  Done (fst r, mkFlag (snd r) shorthand usage value def "").

End VarPF.

End pflag.

(** ** Package [cmdutil] *)

Definition formatValuesForUsageDocs (values : list string) : string :=
  "{" ++ strings.Join values "|" ++ "}".

Section Included.
Context {tables : UnicodeTables}.

Fixpoint isIncluded (value : string) (opts : list string) : bool :=
  match opts with
  | [] => false
  | opt :: opts' =>
      if strings.EqualFold opt value then true else isIncluded value opts'
  end.

End Included.

Module stringValue.

Record t : Type := mk { string_ : ptr (ptr string) }.

Definition Set_ (s : t) (value : string) : exec (t * option error) :=
  p <- store (string_ s) (addr value);;
  Done (mk p, None).

Definition String_ (s : t) : exec string :=
  match string_ s with
  | nil => Done ""
  | addr nil => Done ""
  | addr (addr v) => Done v
  end.

Definition Type_ (s : t) : string := "string".

End stringValue.

Definition newStringValue (p : ptr (ptr string)) : stringValue.t :=
  stringValue.mk p.

Module boolValue.

Record t : Type := mk { bool_ : ptr (ptr bool) }.

Definition Set_ (b : t) (value : string) : exec (t * option error) :=
  let (v, err) := strconv.ParseBool value in
  p <- store (bool_ b) (addr v);;
  Done (mk p, err).

Definition String_ (b : t) : exec string :=
  match bool_ b with
  | nil => Done "false"
  | addr nil => Done "false"
  | addr (addr true) => Done "true"
  | addr (addr false) => Done "false"
  end.

Definition Type_ (b : t) : string := "bool".

Definition IsBoolFlag (b : t) : bool := true.

End boolValue.

Definition newBoolValue (p : ptr (ptr bool)) : boolValue.t :=
  boolValue.mk p.

Module regexpValue.

Record t : Type := mk { value : ptr string; re : ptr regexp.Regexp }.

Section Methods.
Context {tables : UnicodeTables}.

Definition Set_ (r : t) (value : string) : exec (t * option error) :=
  pattern <- load (re r);;
  if negb (regexp.MatchString pattern value)
  then Done (r, Some (errorString (strconv.Quote value ++ " does not match regexp format")))
  else
    p <- store (regexpValue.value r) value;;
    Done (mk p (re r), None).

End Methods.

Definition String_ (r : t) : exec string := load (value r).

Definition Type_ (r : t) : string := "string".

End regexpValue.

Module enumValue.

Record t : Type := mk { string_ : ptr string; options : list string }.

Section Methods.
Context {tables : UnicodeTables}.

Definition Set_ (e : t) (value : string) : exec (t * option error) :=
  if negb (isIncluded value (options e))
  then Done (e, Some (errorString ("valid values are " ++ formatValuesForUsageDocs (options e))))
  else
    p <- store (string_ e) value;;
    Done (mk p (options e), None).

End Methods.

Definition String_ (e : t) : exec string := load (string_ e).

Definition Type_ (e : t) : string := "string".

End enumValue.

Module enumMultiValue.

Record t : Type := mk { value : ptr (list string); options : list string }.

Section Methods.
Context {tables : UnicodeTables}.

(** The [for ... range items] of [Set]: the error it returns from, if any. *)
Fixpoint rangeItems (e : t) (items : list string) : option error :=
  match items with
  | [] => None
  | item :: items' =>
      if negb (isIncluded item (options e))
      then Some (errorString ("valid values are " ++ formatValuesForUsageDocs (options e)))
      else rangeItems e items'
  end.

Definition Set_ (e : t) (value : string) : exec (t * option error) :=
  let items := strings.Split value comma in
  match rangeItems e items with
  | Some err => Done (e, Some err)
  | None =>
      p <- store (enumMultiValue.value e) items;;
      Done (mk p (options e), None)
  end.

End Methods.

Definition String_ (e : t) : exec string :=
  items <- load (value e);;
  Done ("{" ++ strings.Join items ", " ++ "}").

Definition Type_ (e : t) : string := "stringSlice".

End enumMultiValue.

(** Each of the five types implements [pflag.Value]. *)

#[export] Instance stringValue_Value : pflag.Value stringValue.t :=
  {| pflag.Set_ := stringValue.Set_;
     pflag.String_ := stringValue.String_;
     pflag.Type_ := stringValue.Type_ |}.

#[export] Instance boolValue_Value : pflag.Value boolValue.t :=
  {| pflag.Set_ := boolValue.Set_;
     pflag.String_ := boolValue.String_;
     pflag.Type_ := boolValue.Type_ |}.

#[export] Instance regexpValue_Value {tables : UnicodeTables} : pflag.Value regexpValue.t :=
  {| pflag.Set_ := regexpValue.Set_;
     pflag.String_ := regexpValue.String_;
     pflag.Type_ := regexpValue.Type_ |}.

#[export] Instance enumValue_Value {tables : UnicodeTables} : pflag.Value enumValue.t :=
  {| pflag.Set_ := enumValue.Set_;
     pflag.String_ := enumValue.String_;
     pflag.Type_ := enumValue.Type_ |}.

#[export] Instance enumMultiValue_Value {tables : UnicodeTables} : pflag.Value enumMultiValue.t :=
  {| pflag.Set_ := enumMultiValue.Set_;
     pflag.String_ := enumMultiValue.String_;
     pflag.Type_ := enumMultiValue.Type_ |}.

(** *** The flag constructors

    Each takes the command and returns it, with the flag entered, beside
    the flag. *)

Section Constructors.
Context {tables : UnicodeTables} {host : Host}.

Definition NilStringFlag (cmd : Command) (p : ptr (ptr string))
    (name shorthand usage : string) : exec (Command * pflag.Flag stringValue.t) :=
  pflag.VarPF cmd (newStringValue p) name shorthand usage.

Definition NilBoolFlag (cmd : Command) (p : ptr (ptr bool))
    (name shorthand usage : string) : exec (Command * pflag.Flag boolValue.t) :=
  r <- pflag.VarPF cmd (newBoolValue p) name shorthand usage;;
  let f := snd r in
  Done (fst r,
        pflag.mkFlag (pflag.Name f) (pflag.Shorthand f) (pflag.Usage f)
          (pflag.Val f) (pflag.DefValue f) "true").

(** The completion function of the two enum constructors: the options,
    whatever the arguments and the text typed so far. *)
Definition completeWith (options : list string)
  : list string -> string -> list string * ShellCompDirective :=
  fun args toComplete => (options, ShellCompDirectiveNoFileComp).

Definition StringEnumFlag (cmd : Command) (p : ptr string)
    (name shorthand defaultValue : string) (options : list string) (usage : string)
  : exec (Command * pflag.Flag enumValue.t) :=
  p <- store p defaultValue;;
  let val := enumValue.mk p options in
  r <- pflag.VarPF cmd val name shorthand
         (usage ++ ": " ++ formatValuesForUsageDocs options);;
  c <- RegisterFlagCompletionFunc (fst r) name (completeWith options);;
  Done (fst c, snd r).

Definition StringSliceEnumFlag (cmd : Command) (p : ptr (list string))
    (name shorthand : string) (defaultValues options : list string) (usage : string)
  : exec (Command * pflag.Flag enumMultiValue.t) :=
  p <- store p defaultValues;;
  let val := enumMultiValue.mk p options in
  r <- pflag.VarPF cmd val name shorthand
         (usage ++ ": " ++ formatValuesForUsageDocs options);;
  c <- RegisterFlagCompletionFunc (fst r) name (completeWith options);;
  Done (fst c, snd r).

Definition StringRegexpFlag (cmd : Command) (p : ptr string)
    (name shorthand defaultValue : string) (re : ptr regexp.Regexp) (usage : string)
  : exec (Command * pflag.Flag regexpValue.t) :=
  p <- store p defaultValue;;
  let val := regexpValue.mk p re in
  pflag.VarPF cmd val name shorthand usage.

(** *** Any adapter

    A value of the interface type: one of the five implementations, with
    the method call dispatched on which. *)

Inductive adapter : Type :=
| NilableString (s : stringValue.t)
| NilableBool (b : boolValue.t)
| RegexpString (r : regexpValue.t)
| EnumString (e : enumValue.t)
| EnumStringSlice (e : enumMultiValue.t).

Definition lift {V : Type} (inj : V -> adapter) (r : exec (V * option error))
  : exec (adapter * option error) :=
  x <- r;; Done (inj (fst x), snd x).

Definition adapter_Set (a : adapter) (v : string) : exec (adapter * option error) :=
  match a with
  | NilableString s => lift NilableString (pflag.Set_ s v)
  | NilableBool b => lift NilableBool (pflag.Set_ b v)
  | RegexpString r => lift RegexpString (pflag.Set_ r v)
  | EnumString e => lift EnumString (pflag.Set_ e v)
  | EnumStringSlice e => lift EnumStringSlice (pflag.Set_ e v)
  end.

Definition adapter_String (a : adapter) : exec string :=
  match a with
  | NilableString s => pflag.String_ s
  | NilableBool b => pflag.String_ b
  | RegexpString r => pflag.String_ r
  | EnumString e => pflag.String_ e
  | EnumStringSlice e => pflag.String_ e
  end.

End Constructors.

(** Tables in which no rune outside ASCII has a case variant or an escape.
    They serve to evaluate the model on ASCII inputs, where no function
    above consults the tables (lemmas [EqualFold_ascii] and
    [Quote_ascii] below). *)
Definition asciiTables : UnicodeTables :=
  {| foldUnicode := String.eqb; quoteUnicode := fun s => s |}.

(** A host that does what pflag's [FlagSet.AddFlag] does when no function
    to normalise names is set: it refuses a name it has, then enters the
    name, and refuses a shorthand of more than one byte and one it has.
    It keeps the names with a completion function, and refuses a second
    one for a flag and one for a flag it does not have. *)
Record flagSet : Type := mkFlagSet {
  formal : list string;
  shorthands : list ascii;
  completions : list string
}.

Definition flagSet_AddFlag (c : flagSet) (name shorthand : string)
  : exec (flagSet * string) :=
  if existsb (String.eqb name) (formal c) then Panic
  else
    match shorthand with
    | EmptyString =>
        Done (mkFlagSet (name :: formal c) (shorthands c) (completions c), name)
    | String ch EmptyString =>
        if existsb (Ascii.eqb ch) (shorthands c) then Panic
        else Done (mkFlagSet (name :: formal c) (ch :: shorthands c) (completions c),
                   name)
    | String _ (String _ _) => Panic
    end.

Definition flagSet_Register (c : flagSet) (name : string)
    (f : list string -> string -> list string * N) : exec (flagSet * option error) :=
  if negb (existsb (String.eqb name) (formal c))
  then Done (c, Some (errorString
                        ("RegisterFlagCompletionFunc: flag '" ++ name
                         ++ "' does not exist")))
  else if existsb (String.eqb name) (completions c)
  then Done (c, Some (errorString
                        ("RegisterFlagCompletionFunc: flag '" ++ name
                         ++ "' already registered")))
  else Done (mkFlagSet (formal c) (shorthands c) (name :: completions c), None).

Definition flagSetHost : Host :=
  {| Command := flagSet;
     ShellCompDirective := N;
     ShellCompDirectiveNoFileComp := 4%N;
     AddFlag := flagSet_AddFlag;
     RegisterFlagCompletionFunc := flagSet_Register |}.

(** A command with no flag yet. *)
Definition noFlags : flagSet := mkFlagSet [] [] [].

(** The pattern [^\d+$]: one decimal digit or more, and nothing else. *)
Definition isDigit (c : ascii) : bool :=
  ((byte "0" <=? byte c) && (byte c <=? byte "9"))%N.

Fixpoint allDigits (s : string) : bool :=
  match s with
  | EmptyString => true
  | String c s' => isDigit c && allDigits s'
  end.

Definition digits : regexp.Regexp :=
  regexp.Compile (fun s => negb (String.eqb s "") && allDigits s).

(** ** Vocabulary of the specification *)

(** [msg] includes [v]: [v] occurs in it, byte for byte. *)
Definition includes (msg v : string) : Prop :=
  exists pre post : string, msg = pre ++ v ++ post.

(** [strings.Contains], which decides [includes]. *)
Fixpoint contains (s substr : string) : bool :=
  prefix substr s
  || match s with
     | EmptyString => false
     | String _ s' => contains s' substr
     end.

(** [v] matches some option of the domain case-insensitively. *)
Definition matchesFold {tables : UnicodeTables} (opts : list string) (v : string) : Prop :=
  exists opt : string, In opt opts /\ strings.EqualFold opt v = true.

(** Printable ASCII other than the double quote and the backslash: the
    bytes [%q] copies as they are. *)
Definition plainByte (c : ascii) : bool :=
  strconv.IsPrint (byte c)
  && negb (byte c =? byte quote)%N && negb (byte c =? byte backslash)%N.

Fixpoint plain (s : string) : bool :=
  match s with
  | EmptyString => true
  | String c s' => plainByte c && plain s'
  end.

(** Follows the spec's words for the boolean literals: the lexical forms
    true, false, 1, 0, t, f, compared without regard to case. *)
Definition spec_toLower (c : ascii) : ascii :=
  if ((byte "A" <=? byte c) && (byte c <=? byte "Z"))%N
  then ascii_of_N (byte c + 32)
  else c.

Fixpoint spec_lowered (s : string) : string :=
  match s with
  | EmptyString => EmptyString
  | String c s' => String (spec_toLower c) (spec_lowered s')
  end.

Definition spec_boolForms : list string := ["true"; "false"; "1"; "0"; "t"; "f"].

Definition spec_isBoolLiteral (v : string) : bool :=
  existsb (String.eqb (spec_lowered v)) spec_boolForms.

(** All bytes of [s] are ASCII. *)
Fixpoint isASCII (s : string) : bool :=
  match s with
  | EmptyString => true
  | String c s' => (byte c <? RuneSelf)%N && isASCII s'
  end.

(** The byte [c] occurs in [s]. *)
Fixpoint occurs (c : ascii) (s : string) : bool :=
  match s with
  | EmptyString => false
  | String x s' => Ascii.eqb x c || occurs c s'
  end.

(** The value a, double quote, b. *)
Definition a_quote_b : string := String "a" (String quote "b").

(** What [%q] makes of it: the double quote is escaped. *)
Definition a_quote_b_message : string :=
  String quote
    (String "a" (String backslash (String quote (String "b"
      (String quote " does not match regexp format"))))).

(** The number of occurrences of the byte [c] in [s]. *)
Fixpoint count (c : ascii) (s : string) : nat :=
  match s with
  | EmptyString => 0
  | String x s' => (if Ascii.eqb x c then 1 else 0) + count c s'
  end.

Definition bar : ascii := "|"%char.
Definition space : ascii := " "%char.

(** ASCII letters in upper case, the other bytes as they are. *)
Definition toUpper (c : ascii) : ascii :=
  if ((byte "a" <=? byte c) && (byte c <=? byte "z"))%N
  then ascii_of_N (byte c - 32)
  else c.

Fixpoint uppered (s : string) : string :=
  match s with
  | EmptyString => EmptyString
  | String c s' => String (toUpper c) (uppered s')
  end.

(** ASCII lower-casing of a byte value. *)
Definition lowerByte (x : N) : N :=
  if ((65 <=? x) && (x <=? 90))%N then (x + 32)%N else x.

Section Invariant.
Context {tables : UnicodeTables}.

(** The target of the adapter holds a value, and the value meets the
    adapter's constraint: it is present, it matches the pattern, it is in
    the domain, or each of its items is. *)
Definition satisfies (a : adapter) : bool :=
  match a with
  | NilableString s =>
      match stringValue.string_ s with
      | addr (addr _) => true
      | _ => false
      end
  | NilableBool b =>
      match boolValue.bool_ b with
      | addr (addr _) => true
      | _ => false
      end
  | RegexpString r =>
      match regexpValue.value r, regexpValue.re r with
      | addr v, addr pattern => regexp.MatchString pattern v
      | _, _ => false
      end
  | EnumString e =>
      match enumValue.string_ e with
      | addr v => isIncluded v (enumValue.options e)
      | nil => false
      end
  | EnumStringSlice e =>
      match enumMultiValue.value e with
      | addr items =>
          forallb (fun item => isIncluded item (enumMultiValue.options e)) items
      | nil => false
      end
  end.

End Invariant.

(** Unfolds a call of [Set] through the interface, down to the writes. *)
Ltac unfold_Set :=
  cbn [adapter_Set lift pflag.Set_ stringValue_Value boolValue_Value
       regexpValue_Value enumValue_Value enumMultiValue_Value] in *;
  unfold stringValue.Set_, boolValue.Set_, regexpValue.Set_, enumValue.Set_,
    enumMultiValue.Set_ in *;
  cbn [stringValue.string_ boolValue.bool_ regexpValue.re regexpValue.value
       enumValue.options enumValue.string_ enumMultiValue.options
       enumMultiValue.value load store bind negb fst snd] in *.

(** ** Facts about the library functions *)

Lemma append_assoc (a b c : string) : (a ++ b) ++ c = a ++ (b ++ c).
Proof.
  induction a as [|x a IH]; simpl; [reflexivity | now rewrite IH].
Qed.

Lemma append_empty_r (a : string) : a ++ "" = a.
Proof.
  induction a as [|x a IH]; simpl; [reflexivity | now rewrite IH].
Qed.

Lemma fold_left_concat (sep : string) (rest : list string) :
  forall e, fold_left (fun b s => b ++ sep ++ s) rest e = String.concat sep (e :: rest).
Proof.
  induction rest as [|x r IH]; intro e.
  - reflexivity.
  - cbn [fold_left]. rewrite IH.
    destruct r as [|y r'].
    + reflexivity.
    + cbn [String.concat]. now rewrite !append_assoc.
Qed.

(** Go's [Join] is the standard library's [concat]. *)
Lemma Join_concat (elems : list string) (sep : string) :
  strings.Join elems sep = String.concat sep elems.
Proof.
  destruct elems as [|e [|x r]]; try reflexivity.
  unfold strings.Join. apply fold_left_concat.
Qed.

Lemma Split_cons (s : string) (sep : ascii) :
  exists item items, strings.Split s sep = item :: items.
Proof.
  induction s as [|c s' [i [r IH]]]; simpl.
  - now exists "", [].
  - destruct (Ascii.eqb c sep); [now exists "", (strings.Split s' sep) |].
    rewrite IH. now exists (String c i), r.
Qed.

Lemma concat_cons (sep x y : string) (l : list string) :
  String.concat sep (x :: y :: l) = x ++ sep ++ String.concat sep (y :: l).
Proof. reflexivity. Qed.

(** Splitting loses nothing: joining the items with the separator gives
    the string back. *)
Lemma Split_Join (s : string) (sep : ascii) :
  strings.Join (strings.Split s sep) (String sep "") = s.
Proof.
  rewrite Join_concat.
  induction s as [|c s' IH]; [reflexivity |].
  simpl strings.Split.
  destruct (Split_cons s' sep) as [i [r E]]. rewrite E in *.
  destruct (Ascii.eqb_spec c sep) as [-> | _].
  - rewrite concat_cons, IH. reflexivity.
  - destruct r as [|j r'].
    + simpl in *. now rewrite IH.
    + rewrite concat_cons in *. rewrite <- IH. reflexivity.
Qed.

(** No item of a split holds the separator. *)
Lemma Split_items (s : string) (sep : ascii) :
  Forall (fun item => occurs sep item = false) (strings.Split s sep).
Proof.
  induction s as [|c s' IH]; simpl.
  - now repeat constructor.
  - destruct (Ascii.eqb c sep) eqn:E.
    + now constructor.
    + destruct (strings.Split s' sep) as [|i r].
      * repeat constructor. simpl. now rewrite E.
      * inversion IH; subst. constructor; [simpl; now rewrite E | assumption].
Qed.

Lemma prefix_append (v post : string) : prefix v (v ++ post) = true.
Proof.
  induction v as [|c v IH]; simpl.
  - now destruct post.
  - destruct (ascii_dec c c); [assumption | contradiction].
Qed.

Lemma contains_prefix (s v : string) : prefix v s = true -> contains s v = true.
Proof.
  intro H. destruct s; cbn [contains]; rewrite H; reflexivity.
Qed.

Lemma includes_contains (msg v : string) : includes msg v -> contains msg v = true.
Proof.
  intros [pre [post ->]].
  induction pre as [|c pre IH]; simpl append.
  - apply contains_prefix, prefix_append.
  - simpl. rewrite IH. apply orb_true_r.
Qed.

Lemma lor_below_RuneSelf (a b : N) :
  (a < RuneSelf)%N -> (b < RuneSelf)%N -> (N.lor a b < RuneSelf)%N.
Proof.
  unfold RuneSelf. change 128%N with (2 ^ 7)%N. intros Ha Hb.
  destruct (N.eq_dec (N.lor a b) 0) as [-> | Hn]; [reflexivity |].
  apply N.log2_lt_pow2; [lia |].
  rewrite N.log2_lor. apply N.max_lub_lt.
  - destruct (N.eq_dec a 0) as [-> | ?]; [reflexivity | apply N.log2_lt_pow2; lia].
  - destruct (N.eq_dec b 0) as [-> | ?]; [reflexivity | apply N.log2_lt_pow2; lia].
Qed.

(** On ASCII strings [EqualFold] never consults the Unicode tables. *)
Lemma EqualFold_ascii (T1 T2 : UnicodeTables) (s : string) :
  forall t, isASCII s = true -> isASCII t = true ->
    @strings.EqualFold T1 s t = @strings.EqualFold T2 s t.
Proof.
  induction s as [|sc s IH]; intros [|tc t] Hs Ht; try reflexivity.
  simpl in Hs, Ht.
  apply andb_true_iff in Hs as [Hsc Hs]. apply andb_true_iff in Ht as [Htc Ht].
  apply N.ltb_lt in Hsc, Htc.
  pose proof (lor_below_RuneSelf Hsc Htc) as Hlor.
  apply N.leb_gt in Hlor.
  cbn [strings.EqualFold]. cbv zeta. rewrite Hlor.
  rewrite (IH t Hs Ht). reflexivity.
Qed.

Section Facts.
Context {tables : UnicodeTables}.

Lemma isIncluded_matchesFold (v : string) (opts : list string) :
  isIncluded v opts = true <-> matchesFold opts v.
Proof.
  unfold matchesFold. induction opts as [|opt opts IH]; simpl.
  - split; [discriminate | intros [? [[] _]]].
  - destruct (strings.EqualFold opt v) eqn:E.
    + split; [intros _; exists opt; auto | reflexivity].
    + rewrite IH. split.
      * intros [o [Hin Ho]]. exists o; auto.
      * intros [o [[<- | Hin] Ho]]; [congruence | exists o; auto].
Qed.

Lemma not_included (v : string) (opts : list string) :
  ~ matchesFold opts v -> isIncluded v opts = false.
Proof.
  intro H. destruct (isIncluded v opts) eqn:E; [| reflexivity].
  now apply isIncluded_matchesFold in E.
Qed.

(** Only the empty string folds to the empty string. *)
Lemma EqualFold_empty (opt : string) :
  strings.EqualFold opt "" = true <-> opt = "".
Proof.
  destruct opt; simpl; split; congruence.
Qed.

Lemma isIncluded_empty (opts : list string) :
  isIncluded "" opts = true <-> In "" opts.
Proof.
  rewrite isIncluded_matchesFold. unfold matchesFold. split.
  - intros [opt [Hin Ho]]. apply EqualFold_empty in Ho. now subst.
  - intro Hin. exists "". split; [assumption | reflexivity].
Qed.

(** The loop of [enumMultiValue.Set] passes exactly when every item is
    in the domain, and otherwise leaves with the one error it can make. *)
Lemma rangeItems_None (e : enumMultiValue.t) (items : list string) :
  enumMultiValue.rangeItems e items = None
  <-> Forall (matchesFold (enumMultiValue.options e)) items.
Proof.
  induction items as [|item items IH]; simpl.
  - split; [constructor | reflexivity].
  - destruct (isIncluded item (enumMultiValue.options e)) eqn:E; simpl.
    + rewrite IH. apply isIncluded_matchesFold in E. split.
      * now constructor.
      * now inversion 1.
    + split; [discriminate |].
      inversion 1; subst.
      match goal with H : matchesFold _ item |- _ =>
        apply isIncluded_matchesFold in H; congruence end.
Qed.

Lemma rangeItems_Some (e : enumMultiValue.t) (items : list string) (err : error) :
  enumMultiValue.rangeItems e items = Some err ->
  err = errorString ("valid values are "
                     ++ formatValuesForUsageDocs (enumMultiValue.options e)).
Proof.
  induction items as [|item items IH]; simpl; [discriminate |].
  destruct (isIncluded item (enumMultiValue.options e)); simpl; [assumption |].
  now inversion 1.
Qed.

Lemma plainByte_escaped (c : ascii) :
  plainByte c = true ->
  (byte c <? RuneSelf)%N = true /\ strconv.escapedRune c = String c "".
Proof.
  unfold plainByte, strconv.escapedRune, strconv.IsPrint, RuneSelf.
  intro H. apply andb_true_iff in H as [H Hb]. apply andb_true_iff in H as [Hp Hq].
  apply negb_true_iff in Hq, Hb.
  cbv zeta. rewrite Hq, Hb, Hp. split; [| reflexivity].
  apply andb_true_iff in Hp as [_ Hp]. apply N.leb_le in Hp. apply N.ltb_lt. lia.
Qed.

Lemma quoted_plain (v : string) : plain v = true -> strconv.quoted v = v.
Proof.
  induction v as [|c v IH]; simpl; [reflexivity |].
  intro H. apply andb_true_iff in H as [Hc Hv].
  destruct (plainByte_escaped c Hc) as [-> ->].
  simpl. now rewrite IH.
Qed.

(** [%q] of a plain string is the string between double quotes. *)
Lemma Quote_plain (v : string) :
  plain v = true -> strconv.Quote v = String quote (v ++ String quote "").
Proof.
  intro H. unfold strconv.Quote. now rewrite quoted_plain.
Qed.

End Facts.

(** On ASCII strings [Quote] never consults the Unicode tables. *)
Lemma Quote_ascii (T1 T2 : UnicodeTables) (s : string) :
  isASCII s = true -> @strconv.Quote T1 s = @strconv.Quote T2 s.
Proof.
  intro H. unfold strconv.Quote. do 2 f_equal.
  induction s as [|c s IH]; [reflexivity |].
  simpl in *. apply andb_true_iff in H as [Hc Hs].
  rewrite Hc. now rewrite IH.
Qed.

(** ** The adapters against the specification *)

Section Claims.
Context {tables : UnicodeTables}.

(** X16: a failed [Set] of the four adapters that validate before they
    write returns the receiver as it was. *)
Lemma Set_error_keeps_target (a a' : adapter) (v : string) (err : error) :
  (forall b, a <> NilableBool b) ->
  adapter_Set a v = Done (a', Some err) -> a' = a.
Proof.
  intros Hnb H.
  destruct a as [[p] | b | [p re] | [p opts] | [p opts]]; simpl in H.
  - unfold stringValue.Set_ in H. destruct p; simpl in H; congruence.
  - now destruct (Hnb b).
  - unfold regexpValue.Set_ in H. destruct re as [|pat]; simpl in H; [discriminate |].
    destruct (regexp.MatchString pat v); simpl in H; [| congruence].
    destruct p; simpl in H; congruence.
  - unfold enumValue.Set_ in H. simpl in H.
    destruct (isIncluded v opts); simpl in H; [| congruence].
    destruct p; simpl in H; congruence.
  - unfold enumMultiValue.Set_ in H.
    destruct (enumMultiValue.rangeItems _ _); simpl in H; [congruence |].
    destruct p; simpl in H; congruence.
Qed.

(** C1 (the nilable bool adapter breaks it): [boolValue.Set] assigns the
    parsed value to the target before it looks at the parse error, so
    [Set("yes")] returns the error and the target, absent or holding
    [true] before the call, holds [false] after it. *)
Theorem C1_boolValue_Set_failure_overwrites_target :
  boolValue.Set_ (boolValue.mk (addr nil)) "yes"
  = Done (boolValue.mk (addr (addr false)),
          Some (strconv.syntaxError "ParseBool" "yes"))
  /\ boolValue.Set_ (boolValue.mk (addr (addr true))) "yes"
     = Done (boolValue.mk (addr (addr false)),
             Some (strconv.syntaxError "ParseBool" "yes")).
Proof.
  split; reflexivity.
Qed.

Lemma oneOf_In (str : string) (cases : list string) :
  strconv.oneOf str cases = true <-> In str cases.
Proof.
  unfold strconv.oneOf. rewrite existsb_exists. split.
  - intros [x [Hin Hx]]. apply String.eqb_eq in Hx. now subst.
  - intro Hin. exists str. split; [assumption | apply String.eqb_refl].
Qed.

Lemma ParseBool_true (v : string) :
  In v strconv.trueForms -> strconv.ParseBool v = (true, None).
Proof.
  intro H. unfold strconv.ParseBool.
  apply oneOf_In in H. now rewrite H.
Qed.

Lemma ParseBool_false (v : string) :
  In v strconv.falseForms -> strconv.ParseBool v = (false, None).
Proof.
  intro H. unfold strconv.ParseBool.
  destruct (strconv.oneOf v strconv.trueForms) eqn:E.
  - apply oneOf_In in E. simpl in H, E.
    repeat (destruct H as [<- | H]; [intuition discriminate |]). contradiction.
  - apply oneOf_In in H. now rewrite H.
Qed.

Lemma ParseBool_other (v : string) :
  ~ In v (strconv.trueForms ++ strconv.falseForms) ->
  strconv.ParseBool v = (false, Some (strconv.syntaxError "ParseBool" v)).
Proof.
  intro H. unfold strconv.ParseBool.
  destruct (strconv.oneOf v strconv.trueForms) eqn:Et.
  - apply oneOf_In in Et. destruct H. apply in_or_app. now left.
  - destruct (strconv.oneOf v strconv.falseForms) eqn:Ef; [| reflexivity].
    apply oneOf_In in Ef. destruct H. apply in_or_app. now right.
Qed.

(** X17: whatever the target held, a failed [boolValue.Set] leaves
    [false] in it. *)
Lemma boolValue_Set_failure_writes_false (old : ptr bool) (v : string) :
  ~ In v (strconv.trueForms ++ strconv.falseForms) ->
  boolValue.Set_ (boolValue.mk (addr old)) v
  = Done (boolValue.mk (addr (addr false)),
          Some (strconv.syntaxError "ParseBool" v)).
Proof.
  intro H. unfold boolValue.Set_. now rewrite (ParseBool_other H).
Qed.

(** C2 (amended): [boolValue.Set(v)] succeeds exactly on the twelve
    literals of [strconv.ParseBool], which are 1, t, T, true, TRUE, True
    (the target then holds true) and 0, f, F, false, FALSE, False (the
    target then holds false); each of them is one of the spec's forms up
    to case.  For every other string, mixed casings such as tRuE
    included, it returns the parse error of [ParseBool] for [v]. *)
Theorem C2_boolValue_Set_accepts_the_ParseBool_literals :
  forall (old : ptr bool) (v : string),
    (In v strconv.trueForms ->
       boolValue.Set_ (boolValue.mk (addr old)) v
       = Done (boolValue.mk (addr (addr true)), None))
    /\ (In v strconv.falseForms ->
       boolValue.Set_ (boolValue.mk (addr old)) v
       = Done (boolValue.mk (addr (addr false)), None))
    /\ (~ In v (strconv.trueForms ++ strconv.falseForms) ->
       exists b', boolValue.Set_ (boolValue.mk (addr old)) v
                  = Done (b', Some (NumError "ParseBool" v (errorString "invalid syntax"))))
    /\ (In v (strconv.trueForms ++ strconv.falseForms) ->
       spec_isBoolLiteral v = true).
Proof.
  intros old v. unfold boolValue.Set_. repeat split.
  - intro H. now rewrite (ParseBool_true H).
  - intro H. now rewrite (ParseBool_false H).
  - intro H. rewrite (ParseBool_other H). simpl. eauto.
  - simpl. intro H.
    repeat (destruct H as [<- | H]; [reflexivity |]). contradiction.
Qed.

(** C3: [enumMultiValue.Set(v)] splits [v] at the commas.  It succeeds
    exactly when every item matches some option case-insensitively; the
    target then is the whole split, items in order, repeated ones kept and
    each as it was written (joined by commas they give [v] back).  When an
    item matches no option it returns the invalid-enum-value error and the
    target keeps its value.  With options a, b, [Set] of A,b makes the
    target the items A, b. *)
Theorem C3_enumMultiValue_Set_all_or_nothing :
  forall (opts old : list string) (v : string),
    let e := enumMultiValue.mk (addr old) opts in
    let items := strings.Split v comma in
    ((exists e', enumMultiValue.Set_ e v = Done (e', None))
       <-> Forall (matchesFold opts) items)
    /\ (Forall (matchesFold opts) items ->
          enumMultiValue.Set_ e v = Done (enumMultiValue.mk (addr items) opts, None))
    /\ (~ Forall (matchesFold opts) items ->
          enumMultiValue.Set_ e v
          = Done (e, Some (errorString
                             ("valid values are " ++ formatValuesForUsageDocs opts))))
    /\ strings.Join items "," = v
    /\ enumMultiValue.Set_ (enumMultiValue.mk (addr old) ["a"; "b"]) "A,b"
       = Done (enumMultiValue.mk (addr ["A"; "b"]) ["a"; "b"], None).
Proof.
  intros opts old v e items.
  assert (Hok : Forall (matchesFold opts) items ->
                enumMultiValue.Set_ e v
                = Done (enumMultiValue.mk (addr items) opts, None)).
  { intro H. apply (rangeItems_None e) in H.
    unfold enumMultiValue.Set_. fold items. now rewrite H. }
  assert (Hko : ~ Forall (matchesFold opts) items ->
                enumMultiValue.Set_ e v
                = Done (e, Some (errorString
                                   ("valid values are " ++ formatValuesForUsageDocs opts)))).
  { intro H. unfold enumMultiValue.Set_. fold items.
    destruct (enumMultiValue.rangeItems e items) as [err|] eqn:E.
    - now rewrite (rangeItems_Some _ _ E).
    - destruct H. now apply (rangeItems_None e). }
  repeat split; try assumption.
  - intros [e' H].
    destruct (enumMultiValue.rangeItems e items) as [err|] eqn:E.
    + unfold enumMultiValue.Set_ in H. fold items in H. rewrite E in H. discriminate.
    + now apply (rangeItems_None e).
  - intro H. rewrite (Hok H). eauto.
  - apply Split_Join.
Qed.

(** C4: [enumValue.Set(v)] succeeds exactly when [v] matches some option
    case-insensitively.  The target then holds [v] as the caller wrote
    it, which is what [String()] returns afterwards.  Otherwise [Set]
    returns the invalid-enum-value error, whose message lists the options
    between braces, and the target keeps its value. *)
Theorem C4_enumValue_Set_membership :
  forall (opts : list string) (old v : string),
    let e := enumValue.mk (addr old) opts in
    ((exists e', enumValue.Set_ e v = Done (e', None)) <-> matchesFold opts v)
    /\ (matchesFold opts v ->
          enumValue.Set_ e v = Done (enumValue.mk (addr v) opts, None)
          /\ enumValue.String_ (enumValue.mk (addr v) opts) = Done v)
    /\ (~ matchesFold opts v ->
          enumValue.Set_ e v
          = Done (e, Some (errorString
                             ("valid values are {" ++ String.concat "|" opts ++ "}")))).
Proof.
  intros opts old v e.
  assert (Hok : matchesFold opts v ->
                enumValue.Set_ e v = Done (enumValue.mk (addr v) opts, None)).
  { intro H. apply isIncluded_matchesFold in H.
    unfold enumValue.Set_. simpl. now rewrite H. }
  repeat split.
  - intros [e' H]. unfold enumValue.Set_ in H. simpl in H.
    destruct (isIncluded v opts) eqn:E; [| discriminate].
    now apply isIncluded_matchesFold.
  - intro H. rewrite (Hok H). eauto.
  - now apply Hok.
  - intro H. apply not_included in H.
    unfold enumValue.Set_, formatValuesForUsageDocs. simpl.
    now rewrite H, Join_concat.
Qed.

(** C5: [stringValue.Set(v)] returns no error for any [v], the empty
    string included, and the target then is present and holds [v]. *)
Theorem C5_stringValue_Set_stores :
  forall (old : ptr string) (v : string),
    stringValue.Set_ (stringValue.mk (addr old)) v
    = Done (stringValue.mk (addr (addr v)), None)
    /\ stringValue.String_ (stringValue.mk (addr (addr v))) = Done v
    /\ stringValue.Set_ (stringValue.mk (addr old)) ""
       = Done (stringValue.mk (addr (addr "")), None).
Proof.
  intros old v. repeat split.
Qed.

(** C6 (amended): [regexpValue.Set(v)] succeeds, and stores [v], exactly
    when [v] matches the pattern.  When it does not, the target keeps its
    value and the error's message is [v] as the verb [%q] writes it
    (between double quotes, escaped) followed by the words does not match
    regexp format; the message includes [v] itself whenever [v] is made of
    printable ASCII other than the double quote and the backslash. *)
Theorem C6_regexpValue_Set_pattern :
  forall (pattern : regexp.Regexp) (old v : string),
    let r := regexpValue.mk (addr old) (addr pattern) in
    ((exists r', regexpValue.Set_ r v = Done (r', None))
       <-> regexp.MatchString pattern v = true)
    /\ (regexp.MatchString pattern v = true ->
          regexpValue.Set_ r v
          = Done (regexpValue.mk (addr v) (addr pattern), None))
    /\ (regexp.MatchString pattern v = false ->
          regexpValue.Set_ r v
          = Done (r, Some (errorString
                             (strconv.Quote v ++ " does not match regexp format"))))
    /\ (plain v = true ->
          includes (strconv.Quote v ++ " does not match regexp format") v).
Proof.
  intros pattern old v r.
  assert (Hinc : plain v = true ->
                 includes (strconv.Quote v ++ " does not match regexp format") v).
  { intro H. rewrite (Quote_plain _ H).
    exists (String quote ""), (String quote " does not match regexp format").
    simpl. now rewrite append_assoc. }
  unfold regexpValue.Set_, r.
  cbn [regexpValue.re regexpValue.value load store bind].
  destruct (regexp.MatchString pattern v) eqn:E;
    cbn [negb store bind]; repeat split;
    try congruence; try (intros [r' H]; discriminate); eauto.
Qed.

Section Registration.
Context {host : Host}.

(** C7: the constructors of the enum, enum-slice and regexp flags write
    the default into the target as their first step and check it against
    nothing.  Whatever the default, in the domain or not, matching the
    pattern or not: when the host enters the flag, and takes the
    completion function, they return the flag, bound to a target that
    holds the default; and whether they return at all does not depend on
    the default. *)
Theorem C7_constructors_store_default_unchecked :
  forall (cmd : Command) (name shorthand usage : string) (options : list string)
         (re : ptr regexp.Regexp),
    (forall cmd1 name1 cmd2 err (old defaultValue : string),
        AddFlag cmd name shorthand = Done (cmd1, name1) ->
        RegisterFlagCompletionFunc cmd1 name (completeWith options)
        = Done (cmd2, err) ->
        StringEnumFlag cmd (addr old) name shorthand defaultValue options usage
        = Done (cmd2,
                pflag.mkFlag name1 shorthand
                  (usage ++ ": " ++ formatValuesForUsageDocs options)
                  (enumValue.mk (addr defaultValue) options) defaultValue ""))
    /\ (forall cmd1 name1 cmd2 err (old defaultValues : list string),
        AddFlag cmd name shorthand = Done (cmd1, name1) ->
        RegisterFlagCompletionFunc cmd1 name (completeWith options)
        = Done (cmd2, err) ->
        StringSliceEnumFlag cmd (addr old) name shorthand defaultValues options usage
        = Done (cmd2,
                pflag.mkFlag name1 shorthand
                  (usage ++ ": " ++ formatValuesForUsageDocs options)
                  (enumMultiValue.mk (addr defaultValues) options)
                  ("{" ++ strings.Join defaultValues ", " ++ "}") ""))
    /\ (forall cmd1 name1 (old defaultValue : string),
        AddFlag cmd name shorthand = Done (cmd1, name1) ->
        StringRegexpFlag cmd (addr old) name shorthand defaultValue re usage
        = Done (cmd1,
                pflag.mkFlag name1 shorthand usage
                  (regexpValue.mk (addr defaultValue) re) defaultValue ""))
    /\ (forall old d d' : string,
        StringEnumFlag cmd (addr old) name shorthand d options usage = Panic
        <-> StringEnumFlag cmd (addr old) name shorthand d' options usage = Panic)
    /\ (forall old ds ds' : list string,
        StringSliceEnumFlag cmd (addr old) name shorthand ds options usage = Panic
        <-> StringSliceEnumFlag cmd (addr old) name shorthand ds' options usage
            = Panic)
    /\ (forall old d d' : string,
        StringRegexpFlag cmd (addr old) name shorthand d re usage = Panic
        <-> StringRegexpFlag cmd (addr old) name shorthand d' re usage = Panic).
Proof.
  intros cmd name shorthand usage options re.
  unfold StringEnumFlag, StringSliceEnumFlag, StringRegexpFlag, pflag.VarPF.
  cbn [store bind pflag.String_ enumValue_Value enumMultiValue_Value
       regexpValue_Value enumValue.String_ enumMultiValue.String_
       regexpValue.String_ enumValue.string_ enumMultiValue.value
       regexpValue.value load].
  repeat split.
  - intros cmd1 name1 cmd2 err old d H1 H2. rewrite H1. cbn [bind fst snd].
    rewrite H2. reflexivity.
  - intros cmd1 name1 cmd2 err old ds H1 H2. rewrite H1. cbn [bind fst snd].
    rewrite H2. reflexivity.
  - intros cmd1 name1 old d H1. rewrite H1. reflexivity.
  - destruct (AddFlag cmd name shorthand) as [[c1 n1]|]; cbn [bind fst snd];
      [| reflexivity].
    destruct (RegisterFlagCompletionFunc c1 name (completeWith options));
      cbn [bind]; [discriminate | reflexivity].
  - destruct (AddFlag cmd name shorthand) as [[c1 n1]|]; cbn [bind fst snd];
      [| reflexivity].
    destruct (RegisterFlagCompletionFunc c1 name (completeWith options));
      cbn [bind]; [discriminate | reflexivity].
  - destruct (AddFlag cmd name shorthand) as [[c1 n1]|]; cbn [bind fst snd];
      [| reflexivity].
    destruct (RegisterFlagCompletionFunc c1 name (completeWith options));
      cbn [bind]; [discriminate | reflexivity].
  - destruct (AddFlag cmd name shorthand) as [[c1 n1]|]; cbn [bind fst snd];
      [| reflexivity].
    destruct (RegisterFlagCompletionFunc c1 name (completeWith options));
      cbn [bind]; [discriminate | reflexivity].
  - destruct (AddFlag cmd name shorthand) as [[c1 n1]|]; cbn [bind];
      [discriminate | reflexivity].
  - destruct (AddFlag cmd name shorthand) as [[c1 n1]|]; cbn [bind];
      [discriminate | reflexivity].
Qed.

End Registration.

(** C8: [enumMultiValue.String()] is the elements of the target joined
    by a comma and a space, between braces; the elements a, b render as
    {a, b}. *)
Theorem C8_enumMultiValue_String_braces :
  forall (items opts : list string),
    enumMultiValue.String_ (enumMultiValue.mk (addr items) opts)
    = Done ("{" ++ String.concat ", " items ++ "}")
    /\ enumMultiValue.String_ (enumMultiValue.mk (addr ["a"; "b"]) opts)
       = Done "{a, b}".
Proof.
  intros items opts. split; [| reflexivity].
  unfold enumMultiValue.String_. simpl. now rewrite Join_concat.
Qed.

(** The loop of [enumMultiValue.Set] reads the options of its receiver
    and nothing else of it. *)
Lemma rangeItems_options (e e' : enumMultiValue.t) (items : list string) :
  enumMultiValue.options e = enumMultiValue.options e' ->
  enumMultiValue.rangeItems e items = enumMultiValue.rangeItems e' items.
Proof.
  intro H. induction items as [|item items IH]; simpl; [reflexivity |].
  now rewrite H, IH.
Qed.

(** C9: for each of the five adapters, when [Set(v1)] and then [Set(v2)]
    both succeed, the adapter and its target end as [Set(v2)] alone
    leaves them. *)
Theorem C9_last_write_wins :
  forall (a a1 a2 : adapter) (v1 v2 : string),
    adapter_Set a v1 = Done (a1, None) ->
    adapter_Set a1 v2 = Done (a2, None) ->
    adapter_Set a v2 = Done (a2, None).
Proof.
  intros a a1 a2 v1 v2 H1 H2.
  destruct a as [[p] | [p] | [p re] | [p opts] | [p opts]]; unfold_Set.
  - destruct p; unfold_Set; [discriminate |].
    inversion H1; subst a1; clear H1. unfold_Set. exact H2.
  - destruct (strconv.ParseBool v1) as [b1 e1].
    destruct p; unfold_Set; [discriminate |].
    inversion H1; subst a1 e1; clear H1. unfold_Set. exact H2.
  - destruct re as [|pat]; unfold_Set; [discriminate |].
    destruct (regexp.MatchString pat v1); unfold_Set; [| discriminate].
    destruct p; unfold_Set; [discriminate |].
    inversion H1; subst a1; clear H1. unfold_Set.
    destruct (regexp.MatchString pat v2); unfold_Set; [exact H2 | discriminate].
  - destruct (isIncluded v1 opts); unfold_Set; [| discriminate].
    destruct p; unfold_Set; [discriminate |].
    inversion H1; subst a1; clear H1. unfold_Set.
    destruct (isIncluded v2 opts); unfold_Set; [exact H2 | discriminate].
  - destruct (enumMultiValue.rangeItems _ (strings.Split v1 comma));
      unfold_Set; [discriminate |].
    destruct p; unfold_Set; [discriminate |].
    inversion H1; subst a1; clear H1. unfold_Set.
    rewrite (@rangeItems_options _ (enumMultiValue.mk (addr pointee) opts)) in H2
      by reflexivity.
    destruct (enumMultiValue.rangeItems _ (strings.Split v2 comma));
      unfold_Set; [discriminate | exact H2].
Qed.

(** C10: [enumMultiValue.Set] of the empty string sees one item, the
    empty string.  It succeeds, and makes the target that one-element
    sequence, exactly when the empty string is one of the options;
    otherwise it returns the invalid-enum-value error. *)
Theorem C10_enumMultiValue_Set_empty :
  forall (opts old : list string),
    let e := enumMultiValue.mk (addr old) opts in
    strings.Split "" comma = [""]
    /\ ((exists e', enumMultiValue.Set_ e "" = Done (e', None)) <-> In "" opts)
    /\ (In "" opts ->
          enumMultiValue.Set_ e "" = Done (enumMultiValue.mk (addr [""]) opts, None))
    /\ (~ In "" opts ->
          enumMultiValue.Set_ e ""
          = Done (e, Some (errorString
                             ("valid values are " ++ formatValuesForUsageDocs opts)))).
Proof.
  intros opts old e. subst e.
  unfold enumMultiValue.Set_.
  cbn [strings.Split enumMultiValue.rangeItems enumMultiValue.options].
  destruct (isIncluded "" opts) eqn:E; cbn [negb store bind enumMultiValue.value].
  - apply isIncluded_empty in E. repeat split; eauto. contradiction.
  - assert (~ In "" opts) as Hn.
    { intro H. apply isIncluded_empty in H. congruence. }
    repeat split; try contradiction; try (intros [e' H]; discriminate).
Qed.

End Claims.

(** ** Concrete runs *)

(** C2 (as stated, refuted): tRuE is true up to case, one of the spec's
    forms, and [boolValue.Set] returns the parse error for it. *)
Lemma C2_mixed_case_is_rejected :
  spec_isBoolLiteral "tRuE" = true
  /\ boolValue.Set_ (boolValue.mk (addr nil)) "tRuE"
     = Done (boolValue.mk (addr (addr false)),
             Some (NumError "ParseBool" "tRuE" (errorString "invalid syntax")))
  /\ ~ ((exists b', boolValue.Set_ (boolValue.mk (addr nil)) "tRuE" = Done (b', None))
        <-> spec_isBoolLiteral "tRuE" = true).
Proof.
  split; [reflexivity | split; [reflexivity |]].
  intros [_ H]. destruct (H eq_refl) as [b' Hb]. discriminate Hb.
Qed.

(** C6 (as stated, refuted): the pattern [^\d+$] rejects the value a,
    double quote, b, and the message of the error, in which the quote is
    escaped, does not include that value.  The value is ASCII, so the
    tables play no part in the message ([Quote_ascii]). *)
Lemma C6_message_escapes_the_value :
  regexpValue.Set_ (tables := asciiTables)
    (regexpValue.mk (addr "1") (addr digits)) a_quote_b
  = Done (regexpValue.mk (addr "1") (addr digits),
          Some (errorString a_quote_b_message))
  /\ ~ includes a_quote_b_message a_quote_b.
Proof.
  split; [reflexivity |].
  intro H. apply includes_contains in H. discriminate H.
Qed.

(** C9 at the enum adapter with options a, b: [Set] of a and then of B
    leaves what [Set] of B alone leaves. *)
Lemma C9_last_write_wins_witness :
  let a := EnumString (enumValue.mk (addr "") ["a"; "b"]) in
  let a1 := EnumString (enumValue.mk (addr "a") ["a"; "b"]) in
  let a2 := EnumString (enumValue.mk (addr "B") ["a"; "b"]) in
  adapter_Set (tables := asciiTables) a "a" = Done (a1, None)
  /\ adapter_Set (tables := asciiTables) a1 "B" = Done (a2, None)
  /\ adapter_Set (tables := asciiTables) a "B" = Done (a2, None).
Proof.
  intros a a1 a2.
  split; [reflexivity | split; [reflexivity |]].
  apply (@C9_last_write_wins asciiTables a a1 a2 "a" "B"); reflexivity.
Defined.

(** C2 at True, at F and at yes. *)
Lemma C2_boolValue_Set_witness :
  boolValue.Set_ (boolValue.mk (addr nil)) "True"
  = Done (boolValue.mk (addr (addr true)), None)
  /\ boolValue.Set_ (boolValue.mk (addr nil)) "F"
     = Done (boolValue.mk (addr (addr false)), None)
  /\ (exists b', boolValue.Set_ (boolValue.mk (addr nil)) "yes"
                 = Done (b', Some (NumError "ParseBool" "yes" (errorString "invalid syntax"))))
  /\ spec_isBoolLiteral "True" = true.
Proof.
  split; [| split; [| split]].
  - apply (proj1 (C2_boolValue_Set_accepts_the_ParseBool_literals nil "True")).
    simpl. tauto.
  - apply (proj1 (proj2 (C2_boolValue_Set_accepts_the_ParseBool_literals nil "F"))).
    simpl. tauto.
  - apply (proj1 (proj2 (proj2
             (C2_boolValue_Set_accepts_the_ParseBool_literals nil "yes")))).
    simpl. intuition discriminate.
  - apply (proj2 (proj2 (proj2
             (C2_boolValue_Set_accepts_the_ParseBool_literals nil "True")))).
    simpl. tauto.
Defined.

(** C3 with options a, b, c: A,b,a passes, a,b,bogus does not. *)
Lemma C3_enumMultiValue_Set_witness :
  enumMultiValue.Set_ (tables := asciiTables)
    (enumMultiValue.mk (addr ["c"]) ["a"; "b"; "c"]) "A,b,a"
  = Done (enumMultiValue.mk (addr ["A"; "b"; "a"]) ["a"; "b"; "c"], None)
  /\ enumMultiValue.Set_ (tables := asciiTables)
       (enumMultiValue.mk (addr ["c"]) ["a"; "b"; "c"]) "a,b,bogus"
     = Done (enumMultiValue.mk (addr ["c"]) ["a"; "b"; "c"],
             Some (errorString "valid values are {a|b|c}")).
Proof.
  split.
  - apply (proj1 (proj2 (@C3_enumMultiValue_Set_all_or_nothing asciiTables
                           ["a"; "b"; "c"] ["c"] "A,b,a"))).
    apply (rangeItems_None (enumMultiValue.mk (addr ["c"]) ["a"; "b"; "c"])).
    reflexivity.
  - apply (proj1 (proj2 (proj2 (@C3_enumMultiValue_Set_all_or_nothing asciiTables
                                  ["a"; "b"; "c"] ["c"] "a,b,bogus")))).
    intro H.
    apply (rangeItems_None (enumMultiValue.mk (addr ["c"]) ["a"; "b"; "c"])) in H.
    discriminate H.
Defined.

(** C4 with options open, closed: Open passes, merged does not. *)
Lemma C4_enumValue_Set_witness :
  (enumValue.Set_ (tables := asciiTables)
     (enumValue.mk (addr "") ["open"; "closed"]) "Open"
   = Done (enumValue.mk (addr "Open") ["open"; "closed"], None)
   /\ enumValue.String_ (enumValue.mk (addr "Open") ["open"; "closed"]) = Done "Open")
  /\ enumValue.Set_ (tables := asciiTables)
       (enumValue.mk (addr "") ["open"; "closed"]) "merged"
     = Done (enumValue.mk (addr "") ["open"; "closed"],
             Some (errorString "valid values are {open|closed}")).
Proof.
  split.
  - apply (proj1 (proj2 (@C4_enumValue_Set_membership asciiTables
                           ["open"; "closed"] "" "Open"))).
    apply isIncluded_matchesFold. reflexivity.
  - apply (proj2 (proj2 (@C4_enumValue_Set_membership asciiTables
                           ["open"; "closed"] "" "merged"))).
    intro H. apply isIncluded_matchesFold in H. discriminate H.
Defined.

(** C6 with the pattern [^\d+$]: 123 is stored, 12a is refused with a
    message that includes it. *)
Lemma C6_regexpValue_Set_witness :
  regexpValue.Set_ (tables := asciiTables)
    (regexpValue.mk (addr "0") (addr digits)) "123"
  = Done (regexpValue.mk (addr "123") (addr digits), None)
  /\ regexpValue.Set_ (tables := asciiTables)
       (regexpValue.mk (addr "0") (addr digits)) "12a"
     = Done (regexpValue.mk (addr "0") (addr digits),
             Some (errorString
                     (strconv.Quote (tables := asciiTables) "12a"
                      ++ " does not match regexp format")))
  /\ includes (strconv.Quote (tables := asciiTables) "12a"
               ++ " does not match regexp format") "12a".
Proof.
  split; [| split].
  - apply (proj1 (proj2 (@C6_regexpValue_Set_pattern asciiTables digits "0" "123"))).
    reflexivity.
  - apply (proj1 (proj2 (proj2
             (@C6_regexpValue_Set_pattern asciiTables digits "0" "12a")))).
    reflexivity.
  - apply (proj2 (proj2 (proj2
             (@C6_regexpValue_Set_pattern asciiTables digits "0" "12a")))).
    reflexivity.
Defined.

(** C10 with the empty string among the options, and without it. *)
Lemma C10_enumMultiValue_Set_empty_witness :
  enumMultiValue.Set_ (tables := asciiTables)
    (enumMultiValue.mk (addr ["a"]) ["a"; ""]) ""
  = Done (enumMultiValue.mk (addr [""]) ["a"; ""], None)
  /\ enumMultiValue.Set_ (tables := asciiTables)
       (enumMultiValue.mk (addr ["a"]) ["a"; "b"]) ""
     = Done (enumMultiValue.mk (addr ["a"]) ["a"; "b"],
             Some (errorString "valid values are {a|b}")).
Proof.
  split.
  - apply (proj1 (proj2 (proj2
             (@C10_enumMultiValue_Set_empty asciiTables ["a"; ""] ["a"])))).
    simpl. tauto.
  - apply (proj2 (proj2 (proj2
             (@C10_enumMultiValue_Set_empty asciiTables ["a"; "b"] ["a"])))).
    simpl. intuition discriminate.
Defined.

Section Examples.
Context {tables : UnicodeTables}.

(** The runs the specification lists among its testable properties. *)

Example bool_malformed :
  boolValue.Set_ (boolValue.mk (addr nil)) "2"
  = Done (boolValue.mk (addr (addr false)),
          Some (strconv.syntaxError "ParseBool" "2")).
Proof. reflexivity. Qed.

Example enum_any_case :
  enumValue.Set_ (enumValue.mk (addr "") ["open"; "closed"]) "Open"
  = Done (enumValue.mk (addr "Open") ["open"; "closed"], None).
Proof. reflexivity. Qed.

Example enum_slice_bogus :
  enumMultiValue.Set_ (enumMultiValue.mk (addr ["c"]) ["a"; "b"; "c"]) "a,b,bogus"
  = Done (enumMultiValue.mk (addr ["c"]) ["a"; "b"; "c"],
          Some (errorString "valid values are {a|b|c}")).
Proof. reflexivity. Qed.

Example regexp_digits_accepts :
  regexpValue.Set_ (regexpValue.mk (addr "0") (addr digits)) "123"
  = Done (regexpValue.mk (addr "123") (addr digits), None)
  /\ regexpValue.String_ (regexpValue.mk (addr "123") (addr digits)) = Done "123".
Proof. split; reflexivity. Qed.

Example regexp_digits_rejects :
  regexpValue.Set_ (regexpValue.mk (addr "0") (addr digits)) "12a"
  = Done (regexpValue.mk (addr "0") (addr digits),
          Some (errorString
                  (String quote ("12a" ++ String quote " does not match regexp format")))).
Proof. reflexivity. Qed.

Example enum_default_outside_domain :
  isIncluded "zz" ["a"; "b"] = false
  /\ StringEnumFlag (host := flagSetHost) noFlags (addr "") "state" "s" "zz"
       ["a"; "b"] "Filter by state"
     = Done (mkFlagSet ["state"] ["s"%char] ["state"],
             pflag.mkFlag "state" "s" "Filter by state: {a|b}"
               (enumValue.mk (addr "zz") ["a"; "b"]) "zz" "").
Proof. split; reflexivity. Qed.

Example regexp_default_outside_pattern :
  regexp.MatchString digits "none" = false
  /\ StringRegexpFlag (host := flagSetHost) noFlags (addr "") "count" "c" "none"
       (addr digits) "How many"
     = Done (mkFlagSet ["count"] ["c"%char] [],
             pflag.mkFlag "count" "c" "How many"
               (regexpValue.mk (addr "none") (addr digits)) "none" "").
Proof. split; reflexivity. Qed.

Example nil_bool_flag :
  NilBoolFlag (host := flagSetHost) noFlags (addr nil) "draft" "d" "Mark as draft"
  = Done (mkFlagSet ["draft"] ["d"%char] [],
          pflag.mkFlag "draft" "d" "Mark as draft"
            (boolValue.mk (addr nil)) "false" "true").
Proof. reflexivity. Qed.

(** The flag set refuses a shorthand of two bytes and a name it has, and
    the constructor panics with it, whatever the default. *)
Example host_refuses_the_flag :
  StringEnumFlag (host := flagSetHost) noFlags (addr "") "state" "st" "a"
    ["a"; "b"] "Filter by state" = Panic
  /\ StringRegexpFlag (host := flagSetHost) (mkFlagSet ["count"] [] []) (addr "")
       "count" "" "1" (addr digits) "How many" = Panic
  /\ NilStringFlag (host := flagSetHost) (mkFlagSet ["title"] ["b"%char] [])
       (addr nil) "body" "b" "Body" = Panic.
Proof. repeat split. Qed.

Example unbound_target_panics :
  stringValue.Set_ (stringValue.mk nil) "x" = Panic
  /\ enumValue.Set_ (enumValue.mk nil ["a"]) "a" = Panic
  /\ enumValue.Set_ (enumValue.mk nil ["a"]) "b"
     = Done (enumValue.mk nil ["a"], Some (errorString "valid values are {a}")).
Proof. repeat split. Qed.

End Examples.

(** ** Further properties of the package *)

(** *** Splitting and joining *)

Lemma Split_nosep_app (i s : string) (sep : ascii) :
  occurs sep i = false ->
  strings.Split (i ++ s) sep
  = (i ++ hd "" (strings.Split s sep)) :: tl (strings.Split s sep).
Proof.
  induction i as [|c i IH]; simpl; intro H.
  - destruct (Split_cons s sep) as [h [t ->]]. reflexivity.
  - apply orb_false_iff in H as [Hc Hi]. rewrite Hc, (IH Hi). reflexivity.
Qed.

(** Joining with a separator that no item holds is undone by the split. *)
Lemma Split_concat (items : list string) (sep : ascii) :
  items <> [] ->
  Forall (fun item => occurs sep item = false) items ->
  strings.Split (String.concat (String sep "") items) sep = items.
Proof.
  induction items as [|x [|y l] IH]; intros Hne Hall.
  - contradiction.
  - inversion Hall; subst. simpl String.concat.
    rewrite <- (append_empty_r x) at 1.
    match goal with H : occurs sep x = false |- _ =>
      rewrite (@Split_nosep_app x "" sep H) end.
    simpl. now rewrite append_empty_r.
  - inversion Hall; subst. rewrite concat_cons.
    match goal with H : occurs sep x = false |- _ =>
      rewrite (@Split_nosep_app x _ sep H) end.
    cbn [append strings.Split]. rewrite Ascii.eqb_refl.
    cbn [hd tl]. rewrite append_empty_r.
    f_equal. apply IH; [discriminate | assumption].
Qed.

Lemma Split_length (s : string) (sep : ascii) :
  List.length (strings.Split s sep) = S (count sep s).
Proof.
  induction s as [|c s IH]; simpl; [reflexivity |].
  destruct (Ascii.eqb c sep); simpl.
  - now rewrite IH.
  - destruct (Split_cons s sep) as [h [t E]]. rewrite E in *. exact IH.
Qed.

Lemma length_append (a b : string) :
  String.length (a ++ b) = String.length a + String.length b.
Proof.
  induction a as [|x a IH]; simpl; [reflexivity | now rewrite IH].
Qed.

Lemma append_inj_r (a b c : string) : a ++ c = b ++ c -> a = b.
Proof.
  revert b. induction a as [|x a IH]; intros [|y b] H; simpl in H.
  - reflexivity.
  - apply (f_equal String.length) in H. simpl in H.
    rewrite length_append in H. lia.
  - apply (f_equal String.length) in H. simpl in H.
    rewrite length_append in H. lia.
  - inversion H; subst. f_equal. now apply IH.
Qed.

(** The split of what [enumMultiValue.String] puts between the braces:
    every item after the first comes back with the space of the
    separator in front. *)
Lemma Split_Join_comma_space (items : list string) :
  Forall (fun item => occurs comma item = false) items ->
  strings.Split (strings.Join items ", ") comma
  = match items with
    | [] => [""]
    | x :: rest => x :: map (String space) rest
    end.
Proof.
  rewrite Join_concat.
  induction items as [|x [|y l] IH]; intro Hall.
  - reflexivity.
  - inversion Hall; subst. simpl String.concat.
    rewrite <- (append_empty_r x) at 1.
    match goal with H : occurs comma x = false |- _ =>
      rewrite (@Split_nosep_app x "" comma H) end.
    simpl. now rewrite append_empty_r.
  - inversion Hall; subst. rewrite concat_cons.
    match goal with H : occurs comma x = false |- _ =>
      rewrite (@Split_nosep_app x _ comma H) end.
    match goal with H : Forall _ (y :: l) |- _ => specialize (IH H) end.
    change (", " ++ String.concat ", " (y :: l))
      with (String comma (String space (String.concat ", " (y :: l)))).
    cbn [strings.Split]. change (Ascii.eqb comma comma) with true.
    change (Ascii.eqb space comma) with false. cbv iota.
    rewrite IH. cbn [hd tl map]. now rewrite append_empty_r.
Qed.

(** *** Case folding on ASCII *)

Lemma byte_inj (a b : ascii) : byte a = byte b -> a = b.
Proof.
  unfold byte. intro H.
  rewrite <- (ascii_N_embedding a), <- (ascii_N_embedding b). now rewrite H.
Qed.

Lemma byte_eqb (a b : ascii) : Ascii.eqb a b = (byte a =? byte b)%N.
Proof.
  destruct (Ascii.eqb_spec a b) as [-> | Hn].
  - now rewrite N.eqb_refl.
  - symmetry. apply N.eqb_neq. intro H. now apply Hn, byte_inj.
Qed.

Lemma byte_toLower (c : ascii) : byte (spec_toLower c) = lowerByte (byte c).
Proof.
  unfold spec_toLower, lowerByte.
  change (byte "A") with 65%N. change (byte "Z") with 90%N.
  destruct ((65 <=? byte c) && (byte c <=? 90))%N eqn:E; [| reflexivity].
  apply andb_true_iff in E as [_ E]. apply N.leb_le in E.
  unfold byte at 1. apply N_ascii_embedding. lia.
Qed.

Lemma byte_toUpper (c : ascii) :
  lowerByte (byte (toUpper c)) = lowerByte (byte c).
Proof.
  unfold toUpper.
  change (byte "a") with 97%N. change (byte "z") with 122%N.
  destruct ((97 <=? byte c) && (byte c <=? 122))%N eqn:E; [| reflexivity].
  apply andb_true_iff in E as [E1 E2]. apply N.leb_le in E1, E2.
  unfold byte at 1. rewrite N_ascii_embedding by lia.
  unfold lowerByte.
  replace ((65 <=? byte c - 32) && (byte c - 32 <=? 90))%N with true
    by (symmetry; apply andb_true_iff; split; apply N.leb_le; lia).
  replace ((65 <=? byte c) && (byte c <=? 90))%N with false
    by (symmetry; apply andb_false_iff; right; apply N.leb_gt; lia).
  lia.
Qed.

Lemma lowerByte_idem (x : N) : lowerByte (lowerByte x) = lowerByte x.
Proof.
  unfold lowerByte.
  destruct ((65 <=? x) && (x <=? 90))%N eqn:E; [| now rewrite E].
  apply andb_true_iff in E as [E1 E2]. apply N.leb_le in E1, E2.
  replace ((65 <=? x + 32) && (x + 32 <=? 90))%N with false; [reflexivity |].
  symmetry. apply andb_false_iff. right. apply N.leb_gt. lia.
Qed.

(** The test [EqualFold] makes on two different ASCII bytes is the
    equality of their lower-case forms. *)
Lemma fold_step (x y : N) :
  (x < 128)%N -> (y < 128)%N -> x <> y ->
  (let (lo, hi) := if (y <? x)%N then (y, x) else (x, y) in
   (65 <=? lo) && (lo <=? 90) && (hi =? (lo + 97 - 65) mod 256))%N
  = (lowerByte x =? lowerByte y)%N.
Proof.
  intros Hx Hy Hne. unfold lowerByte.
  destruct (N.ltb_spec y x) as [Hlt | Hge];
    destruct (N.leb_spec 65 x) as [X1 | X1];
    destruct (N.leb_spec x 90) as [X2 | X2];
    destruct (N.leb_spec 65 y) as [Y1 | Y1];
    destruct (N.leb_spec y 90) as [Y2 | Y2];
    cbn [andb];
    try (replace ((x + 97 - 65) mod 256)%N with (x + 32)%N
          by (rewrite N.mod_small; lia));
    try (replace ((y + 97 - 65) mod 256)%N with (y + 32)%N
          by (rewrite N.mod_small; lia));
    repeat match goal with
           | |- context [(?a =? ?b)%N] => destruct (N.eqb_spec a b)
           end;
    try reflexivity; exfalso; lia.
Qed.

Lemma isASCII_lowered (s : string) : isASCII s = true -> isASCII (spec_lowered s) = true.
Proof.
  induction s as [|c s IH]; simpl; [reflexivity |].
  intro H. apply andb_true_iff in H as [Hc Hs].
  rewrite (IH Hs), byte_toLower. apply N.ltb_lt in Hc.
  rewrite andb_true_r. apply N.ltb_lt. unfold lowerByte, RuneSelf in *.
  destruct ((65 <=? byte c) && (byte c <=? 90))%N eqn:E; [| assumption].
  apply andb_true_iff in E as [_ E]. apply N.leb_le in E. lia.
Qed.

Lemma isASCII_uppered (s : string) : isASCII s = true -> isASCII (uppered s) = true.
Proof.
  induction s as [|c s IH]; simpl; [reflexivity |].
  intro H. apply andb_true_iff in H as [Hc Hs].
  rewrite (IH Hs), andb_true_r. apply N.ltb_lt in Hc. apply N.ltb_lt.
  unfold toUpper, RuneSelf in *.
  change (byte "a") with 97%N. change (byte "z") with 122%N.
  destruct ((97 <=? byte c) && (byte c <=? 122))%N eqn:E; [| assumption].
  apply andb_true_iff in E as [E1 E2]. apply N.leb_le in E1, E2.
  unfold byte at 1. rewrite N_ascii_embedding by lia. lia.
Qed.

Lemma lowered_idem (s : string) : spec_lowered (spec_lowered s) = spec_lowered s.
Proof.
  induction s as [|c s IH]; simpl; [reflexivity |].
  rewrite IH. f_equal. apply byte_inj.
  now rewrite !byte_toLower, lowerByte_idem.
Qed.

Lemma lowered_uppered (s : string) : spec_lowered (uppered s) = spec_lowered s.
Proof.
  induction s as [|c s IH]; simpl; [reflexivity |].
  rewrite IH. f_equal. apply byte_inj.
  now rewrite !byte_toLower, byte_toUpper.
Qed.

Section Extras.
Context {tables : UnicodeTables}.

(** On ASCII strings [EqualFold] is equality of the lower-case forms. *)
Lemma EqualFold_lowered (s : string) :
  forall t, isASCII s = true -> isASCII t = true ->
    strings.EqualFold s t = String.eqb (spec_lowered s) (spec_lowered t).
Proof.
  induction s as [|sc s IH]; intros [|tc t] Hs Ht; try reflexivity.
  simpl in Hs, Ht.
  apply andb_true_iff in Hs as [Hsc Hs]. apply andb_true_iff in Ht as [Htc Ht].
  apply N.ltb_lt in Hsc, Htc.
  pose proof (lor_below_RuneSelf Hsc Htc) as Hlor. apply N.leb_gt in Hlor.
  cbn [strings.EqualFold spec_lowered String.eqb]. cbv zeta. rewrite Hlor.
  rewrite byte_eqb, !byte_toLower, (IH t Hs Ht).
  destruct (N.eqb_spec (byte tc) (byte sc)) as [E | E].
  - now rewrite E, N.eqb_refl.
  - assert (E' : byte sc <> byte tc) by congruence.
    pose proof (fold_step Hsc Htc E') as F.
    change (byte "A") with 65%N. change (byte "Z") with 90%N.
    change (byte "a") with 97%N.
    destruct (byte tc <? byte sc)%N; rewrite F; reflexivity.
Qed.

Lemma isIncluded_lowered (v : string) (opts : list string) :
  isASCII v = true -> Forall (fun o => isASCII o = true) opts ->
  isIncluded v opts
  = existsb (fun o => String.eqb (spec_lowered o) (spec_lowered v)) opts.
Proof.
  intros Hv Ho. induction Ho as [|o opts Hoa _ IH]; simpl; [reflexivity |].
  rewrite (EqualFold_lowered o v Hoa Hv), IH.
  now destruct (String.eqb (spec_lowered o) (spec_lowered v)).
Qed.

(** *** The usage text of the enum flags *)

(** X1: [formatValuesForUsageDocs] tells domains apart: two non-empty
    lists of options, none of which holds a vertical bar, have the same
    text only when they are the same list. *)
Theorem formatValuesForUsageDocs_injective :
  forall a b : list string,
    a <> [] -> b <> [] ->
    Forall (fun o => occurs bar o = false) a ->
    Forall (fun o => occurs bar o = false) b ->
    formatValuesForUsageDocs a = formatValuesForUsageDocs b ->
    a = b.
Proof.
  intros a b Ha Hb Fa Fb H.
  unfold formatValuesForUsageDocs in H. simpl in H.
  injection H as H. apply append_inj_r in H.
  rewrite !Join_concat in H.
  rewrite <- (@Split_concat a bar Ha Fa), <- (@Split_concat b bar Hb Fb).
  change (String bar "") with "|". now rewrite H.
Qed.

(** The two conditions are needed: the empty list and the list of the
    empty option read the same, and so do one option with a bar in it
    and the two options around the bar. *)
Example formatValuesForUsageDocs_collisions :
  formatValuesForUsageDocs [] = formatValuesForUsageDocs [""]
  /\ formatValuesForUsageDocs ["a|b"] = formatValuesForUsageDocs ["a"; "b"].
Proof. split; reflexivity. Qed.

(** *** The enum string-slice adapter and the enum string adapter *)

(** X2: [enumMultiValue.Set(v)] accepts [v] exactly when an
    [enumValue] with the same options accepts each item of [v], one by
    one. *)
Theorem enumMultiValue_Set_itemwise :
  forall (opts old : list string) (cur v : string),
    (exists e', enumMultiValue.Set_ (enumMultiValue.mk (addr old) opts) v
                = Done (e', None))
    <-> Forall (fun item =>
                  exists e', enumValue.Set_ (enumValue.mk (addr cur) opts) item
                             = Done (e', None))
               (strings.Split v comma).
Proof.
  intros opts old cur v.
  unfold enumMultiValue.Set_.
  set (e := enumMultiValue.mk (addr old) opts).
  assert (Hitem : forall item,
             (exists e', enumValue.Set_ (enumValue.mk (addr cur) opts) item
                         = Done (e', None))
             <-> matchesFold opts item).
  { intro item. rewrite <- isIncluded_matchesFold.
    unfold enumValue.Set_. simpl.
    destruct (isIncluded item opts); simpl; split; eauto; try discriminate.
    intros [e' H]. discriminate. }
  split.
  - intros [e' H].
    destruct (enumMultiValue.rangeItems e (strings.Split v comma)) eqn:E;
      [discriminate |].
    apply rangeItems_None in E. simpl in E.
    eapply Forall_impl; [| exact E]. intros item Hm. now apply Hitem.
  - intro HF.
    assert (Hm : Forall (matchesFold opts) (strings.Split v comma)).
    { eapply Forall_impl; [| exact HF]. intros item Hi. now apply Hitem. }
    apply (rangeItems_None e) in Hm. rewrite Hm. simpl. eauto.
Qed.

(** X3: for a non-empty list of items that hold no comma and are all in
    the domain, [enumMultiValue.Set] of the items joined by commas stores
    exactly that list. *)
Theorem enumMultiValue_Set_of_joined :
  forall (opts old items : list string),
    items <> [] ->
    Forall (fun item => occurs comma item = false) items ->
    Forall (matchesFold opts) items ->
    enumMultiValue.Set_ (enumMultiValue.mk (addr old) opts) (strings.Join items ",")
    = Done (enumMultiValue.mk (addr items) opts, None).
Proof.
  intros opts old items Hne Hc Hm.
  unfold enumMultiValue.Set_.
  rewrite Join_concat. change "," with (String comma "").
  rewrite (@Split_concat items comma Hne Hc).
  apply (rangeItems_None (enumMultiValue.mk (addr old) opts)) in Hm.
  now rewrite Hm.
Qed.

(** X4: after a successful [enumMultiValue.Set(v)] the target holds one
    item more than [v] has commas, and no item holds a comma. *)
Theorem enumMultiValue_Set_items :
  forall (e e' : enumMultiValue.t) (v : string),
    enumMultiValue.Set_ e v = Done (e', None) ->
    exists items,
      enumMultiValue.value e' = addr items
      /\ List.length items = S (count comma v)
      /\ Forall (fun item => occurs comma item = false) items.
Proof.
  intros e e' v H. unfold enumMultiValue.Set_ in H.
  destruct (enumMultiValue.rangeItems e (strings.Split v comma)); [discriminate |].
  destruct (enumMultiValue.value e); simpl in H; [discriminate |].
  inversion H; subst. exists (strings.Split v comma). simpl.
  split; [reflexivity | split; [apply Split_length | apply Split_items]].
Qed.

(** X5: [String()] separates the items by a comma and a space and [Set]
    splits at the comma alone, so [Set] does not read back what [String]
    shows: with two items or more in the target, [Set] of the text
    between the braces sees the second item with a space in front,
    rejects it unless the domain has such an option, and leaves the
    target as it was. *)
Theorem enumMultiValue_Set_of_rendering :
  forall (opts : list string) (x y : string) (rest : list string),
    let items := x :: y :: rest in
    let e := enumMultiValue.mk (addr items) opts in
    Forall (fun item => occurs comma item = false) items ->
    ~ matchesFold opts (String space y) ->
    enumMultiValue.String_ e = Done ("{" ++ strings.Join items ", " ++ "}")
    /\ enumMultiValue.Set_ e (strings.Join items ", ")
       = Done (e, Some (errorString
                          ("valid values are " ++ formatValuesForUsageDocs opts))).
Proof.
  intros opts x y rest items e Hc Hn. split; [reflexivity |].
  unfold enumMultiValue.Set_.
  rewrite (Split_Join_comma_space Hc). unfold items.
  destruct (enumMultiValue.rangeItems e (x :: map (String space) (y :: rest)))
    as [err|] eqn:E.
  - now rewrite (rangeItems_Some _ _ E).
  - apply rangeItems_None in E. inversion E as [|? ? _ E']; subst.
    inversion E'; subst. contradiction.
Qed.

(** *** Case-insensitive membership *)

(** X6: for a value and options in ASCII, [isIncluded] holds exactly when
    some option and the value are the same string once the letters A to Z
    of both are put in lower case. *)
Theorem isIncluded_ascii_case_insensitive :
  forall (v : string) (opts : list string),
    isASCII v = true ->
    Forall (fun o => isASCII o = true) opts ->
    (isIncluded v opts = true
     <-> exists o, In o opts /\ spec_lowered o = spec_lowered v).
Proof.
  intros v opts Hv Ho. rewrite (@isIncluded_lowered v opts Hv Ho), existsb_exists.
  split; intros [o [Hin H]]; exists o; (split; [assumption |]).
  - now apply String.eqb_eq.
  - now apply String.eqb_eq.
Qed.

Lemma isIncluded_variant (opts : list string) (opt w : string) :
  In opt opts -> isASCII opt = true -> isASCII w = true ->
  spec_lowered w = spec_lowered opt ->
  isIncluded w opts = true.
Proof.
  intros Hin Ho Hw Hl. apply isIncluded_matchesFold. exists opt.
  split; [assumption |].
  rewrite (EqualFold_lowered opt w Ho Hw), Hl. apply String.eqb_refl.
Qed.

(** X7: [enumValue.Set] accepts every ASCII option of its domain as it
    is written, all in lower case and all in upper case, and stores the
    text it was given. *)
Theorem enumValue_Set_accepts_option_in_any_case :
  forall (opts : list string) (opt old : string),
    In opt opts -> isASCII opt = true ->
    enumValue.Set_ (enumValue.mk (addr old) opts) opt
    = Done (enumValue.mk (addr opt) opts, None)
    /\ enumValue.Set_ (enumValue.mk (addr old) opts) (spec_lowered opt)
       = Done (enumValue.mk (addr (spec_lowered opt)) opts, None)
    /\ enumValue.Set_ (enumValue.mk (addr old) opts) (uppered opt)
       = Done (enumValue.mk (addr (uppered opt)) opts, None).
Proof.
  intros opts opt old Hin Ho.
  assert (H : forall w, isASCII w = true -> spec_lowered w = spec_lowered opt ->
                enumValue.Set_ (enumValue.mk (addr old) opts) w
                = Done (enumValue.mk (addr w) opts, None)).
  { intros w Hw Hl. unfold enumValue.Set_. simpl.
    now rewrite (@isIncluded_variant opts opt w Hin Ho Hw Hl). }
  repeat split; apply H.
  - assumption.
  - reflexivity.
  - now apply isASCII_lowered.
  - apply lowered_idem.
  - now apply isASCII_uppered.
  - apply lowered_uppered.
Qed.

(** *** Every adapter *)

Lemma rangeItems_forallb (e : enumMultiValue.t) (items : list string) :
  enumMultiValue.rangeItems e items = None ->
  forallb (fun item => isIncluded item (enumMultiValue.options e)) items = true.
Proof.
  induction items as [|item items IH]; simpl; [reflexivity |].
  destruct (isIncluded item (enumMultiValue.options e)); simpl;
    [exact IH | discriminate].
Qed.

(** X8: a [Set] that returns leaves a target that meets the adapter's
    constraint, provided it returned no error or the target met the
    constraint before: a successful [Set] establishes the constraint and
    no [Set] breaks it. *)
Theorem Set_keeps_constraint :
  forall (a a' : adapter) (v : string) (err : option error),
    adapter_Set a v = Done (a', err) ->
    err = None \/ satisfies a = true ->
    satisfies a' = true.
Proof.
  intros a a' v err H Hpre.
  destruct a as [[p] | [p] | [p re] | [p opts] | [p opts]]; unfold_Set.
  - destruct p; unfold_Set; [discriminate |]. inversion H; subst. reflexivity.
  - destruct (strconv.ParseBool v) as [b e].
    destruct p; unfold_Set; [discriminate |]. inversion H; subst. reflexivity.
  - destruct re as [|pat]; unfold_Set; [discriminate |].
    destruct (regexp.MatchString pat v) eqn:E; unfold_Set.
    + destruct p; unfold_Set; [discriminate |]. inversion H; subst. exact E.
    + inversion H; subst. destruct Hpre as [Hn | Hs]; [discriminate | exact Hs].
  - destruct (isIncluded v opts) eqn:E; unfold_Set.
    + destruct p; unfold_Set; [discriminate |]. inversion H; subst. exact E.
    + inversion H; subst. destruct Hpre as [Hn | Hs]; [discriminate | exact Hs].
  - destruct (enumMultiValue.rangeItems _ (strings.Split v comma)) eqn:E;
      unfold_Set.
    + inversion H; subst. destruct Hpre as [Hn | Hs]; [discriminate | exact Hs].
    + destruct p; unfold_Set; [discriminate |]. inversion H; subst.
      apply rangeItems_forallb in E. exact E.
Qed.

(** X9: whether [Set(v2)] succeeds, and the error it returns if it does
    not, are the same before and after a successful [Set(v1)]: the check
    reads the argument and the fixed part of the adapter, never the
    target. *)
Theorem Set_outcome_ignores_target :
  forall (a a1 x : adapter) (v1 v2 : string) (err : option error),
    adapter_Set a v1 = Done (a1, None) ->
    adapter_Set a v2 = Done (x, err) ->
    exists x', adapter_Set a1 v2 = Done (x', err).
Proof.
  intros a a1 x v1 v2 err H1 H2.
  destruct a as [[p] | [p] | [p re] | [p opts] | [p opts]]; unfold_Set.
  - destruct p; unfold_Set; [discriminate |].
    inversion H1; subst a1; clear H1. inversion H2; subst. eexists; reflexivity.
  - destruct (strconv.ParseBool v1) as [b1 e1].
    destruct p; unfold_Set; [discriminate |].
    inversion H1; subst a1 e1; clear H1. unfold_Set.
    destruct (strconv.ParseBool v2) as [b2 e2]. unfold_Set.
    inversion H2; subst. eexists; reflexivity.
  - destruct re as [|pat]; unfold_Set; [discriminate |].
    destruct (regexp.MatchString pat v1); unfold_Set; [| discriminate].
    destruct p; unfold_Set; [discriminate |].
    inversion H1; subst a1; clear H1. unfold_Set.
    destruct (regexp.MatchString pat v2); unfold_Set; inversion H2; subst; eexists; reflexivity.
  - destruct (isIncluded v1 opts); unfold_Set; [| discriminate].
    destruct p; unfold_Set; [discriminate |].
    inversion H1; subst a1; clear H1. unfold_Set.
    destruct (isIncluded v2 opts); unfold_Set; inversion H2; subst; eexists; reflexivity.
  - destruct (enumMultiValue.rangeItems _ (strings.Split v1 comma));
      unfold_Set; [discriminate |].
    destruct p; unfold_Set; [discriminate |].
    inversion H1; subst a1; clear H1. unfold_Set.
    rewrite (@rangeItems_options _
               (enumMultiValue.mk (addr (strings.Split v1 comma)) opts)
               (enumMultiValue.mk (addr pointee) opts) _ eq_refl).
    destruct (enumMultiValue.rangeItems _ (strings.Split v2 comma));
      unfold_Set; inversion H2; subst; eexists; reflexivity.
Qed.

(** *** The nilable adapters *)

(** X10: for the two nilable adapters, bound to a target that is absent
    or present, [Set] of the text [String()] shows succeeds, and
    [String()] shows the same text afterwards. *)
Theorem nilable_Set_of_String :
  (forall old : ptr bool,
      exists s b',
        boolValue.String_ (boolValue.mk (addr old)) = Done s
        /\ boolValue.Set_ (boolValue.mk (addr old)) s = Done (b', None)
        /\ boolValue.String_ b' = Done s)
  /\ (forall old : ptr string,
      exists s s',
        stringValue.String_ (stringValue.mk (addr old)) = Done s
        /\ stringValue.Set_ (stringValue.mk (addr old)) s = Done (s', None)
        /\ stringValue.String_ s' = Done s).
Proof.
  split.
  - intros [|[|]]; do 2 eexists; repeat split.
  - intros [|v]; do 2 eexists; repeat split.
Qed.

(** X11: after a successful [boolValue.Set(v)], [String()] is the word
    true when [v] is one of 1, t, T, true, TRUE, True, and the word false
    otherwise, whatever the spelling of [v] was. *)
Theorem boolValue_String_after_Set :
  forall (b b' : boolValue.t) (v : string),
    boolValue.Set_ b v = Done (b', None) ->
    boolValue.String_ b'
    = Done (if strconv.oneOf v strconv.trueForms then "true" else "false").
Proof.
  intros [p] b' v H. unfold boolValue.Set_, strconv.ParseBool in H.
  destruct (strconv.oneOf v strconv.trueForms).
  - destruct p; simpl in H; [discriminate |]. inversion H; subst. reflexivity.
  - destruct (strconv.oneOf v strconv.falseForms);
      destruct p; simpl in H; try discriminate.
    inversion H; subst. reflexivity.
Qed.

Section Registered.
Context {host : Host}.

(** What the constructors return, when they return, is bound to the
    pointer they were given, with the default behind it. *)
Lemma NilStringFlag_Val (cmd cmd' : Command) (p : ptr (ptr string))
    (name shorthand usage : string) (f : pflag.Flag stringValue.t) :
  NilStringFlag cmd p name shorthand usage = Done (cmd', f) ->
  pflag.Val f = stringValue.mk p.
Proof.
  unfold NilStringFlag, pflag.VarPF, newStringValue. intro H.
  destruct (pflag.String_ (stringValue.mk p)); cbn [bind] in H; [| discriminate].
  destruct (AddFlag cmd name shorthand) as [[c n]|]; cbn [bind fst snd] in H;
    [| discriminate].
  inversion H; subst. reflexivity.
Qed.

Lemma NilBoolFlag_Val (cmd cmd' : Command) (p : ptr (ptr bool))
    (name shorthand usage : string) (f : pflag.Flag boolValue.t) :
  NilBoolFlag cmd p name shorthand usage = Done (cmd', f) ->
  pflag.Val f = boolValue.mk p /\ pflag.NoOptDefVal f = "true".
Proof.
  unfold NilBoolFlag, pflag.VarPF, newBoolValue. intro H.
  destruct (pflag.String_ (boolValue.mk p)); cbn [bind] in H; [| discriminate].
  destruct (AddFlag cmd name shorthand) as [[c n]|]; cbn [bind fst snd] in H;
    [| discriminate].
  inversion H; subst. split; reflexivity.
Qed.

Lemma StringEnumFlag_Val (cmd cmd' : Command) (old d : string)
    (name shorthand usage : string) (opts : list string)
    (f : pflag.Flag enumValue.t) :
  StringEnumFlag cmd (addr old) name shorthand d opts usage = Done (cmd', f) ->
  pflag.Val f = enumValue.mk (addr d) opts.
Proof.
  unfold StringEnumFlag, pflag.VarPF. cbn [store bind]. intro H.
  destruct (pflag.String_ (enumValue.mk (addr d) opts)); cbn [bind] in H;
    [| discriminate].
  destruct (AddFlag cmd name shorthand) as [[c n]|]; cbn [bind fst snd] in H;
    [| discriminate].
  destruct (RegisterFlagCompletionFunc c name (completeWith opts));
    cbn [bind fst snd] in H; [| discriminate].
  inversion H; subst. reflexivity.
Qed.

Lemma StringRegexpFlag_Val (cmd cmd' : Command) (old d : string)
    (name shorthand usage : string) (re : ptr regexp.Regexp)
    (f : pflag.Flag regexpValue.t) :
  StringRegexpFlag cmd (addr old) name shorthand d re usage = Done (cmd', f) ->
  pflag.Val f = regexpValue.mk (addr d) re.
Proof.
  unfold StringRegexpFlag, pflag.VarPF. cbn [store bind]. intro H.
  destruct (pflag.String_ (regexpValue.mk (addr d) re)); cbn [bind] in H;
    [| discriminate].
  destruct (AddFlag cmd name shorthand) as [[c n]|]; cbn [bind fst snd] in H;
    [| discriminate].
  inversion H; subst. reflexivity.
Qed.

(** X12: the flag [NilBoolFlag] returns is bound to the target as the
    constructor found it, and the value it carries for the flag given
    without a value is one that [boolValue.Set] accepts and that makes
    the target true. *)
Theorem NilBoolFlag_without_value :
  forall (cmd cmd' : Command) (old : ptr bool) (name shorthand usage : string)
         (f : pflag.Flag boolValue.t),
    NilBoolFlag cmd (addr old) name shorthand usage = Done (cmd', f) ->
    pflag.Val f = boolValue.mk (addr old)
    /\ boolValue.Set_ (pflag.Val f) (pflag.NoOptDefVal f)
       = Done (boolValue.mk (addr (addr true)), None).
Proof.
  intros cmd cmd' old name shorthand usage f H.
  apply NilBoolFlag_Val in H as [Hv Hn]. rewrite Hv, Hn. split; reflexivity.
Qed.

(** *** The constructors *)

(** X13: [NilStringFlag] and [NilBoolFlag] never write through the
    pointer they are given: for every pointer, nil included, the flag
    they return is bound to it as it is, and they panic only when the
    flag set does.  [StringEnumFlag], [StringSliceEnumFlag] and
    [StringRegexpFlag] write the default first, and panic on nil. *)
Theorem constructors_and_nil :
  forall (cmd : Command) (name shorthand usage d : string) (ds opts : list string)
         (re : ptr regexp.Regexp),
    (forall p cmd' f,
        NilStringFlag cmd p name shorthand usage = Done (cmd', f) ->
        pflag.Val f = stringValue.mk p)
    /\ (forall p,
        NilStringFlag cmd p name shorthand usage = Panic
        <-> AddFlag cmd name shorthand = Panic)
    /\ (forall p cmd' f,
        NilBoolFlag cmd p name shorthand usage = Done (cmd', f) ->
        pflag.Val f = boolValue.mk p)
    /\ (forall p,
        NilBoolFlag cmd p name shorthand usage = Panic
        <-> AddFlag cmd name shorthand = Panic)
    /\ StringEnumFlag cmd nil name shorthand d opts usage = Panic
    /\ StringSliceEnumFlag cmd nil name shorthand ds opts usage = Panic
    /\ StringRegexpFlag cmd nil name shorthand d re usage = Panic.
Proof.
  intros cmd name shorthand usage d ds opts re.
  split; [| split; [| split; [| split; [| repeat split]]]].
  - intros p cmd' f H. exact (NilStringFlag_Val _ _ _ _ _ H).
  - intro p. unfold NilStringFlag, pflag.VarPF, newStringValue.
    destruct p as [|[|v]]; cbn [pflag.String_ stringValue_Value
      stringValue.String_ stringValue.string_ bind];
      destruct (AddFlag cmd name shorthand) as [[c n]|]; cbn [bind];
      split; intro H; try discriminate; reflexivity.
  - intros p cmd' f H. exact (proj1 (NilBoolFlag_Val _ _ _ _ _ H)).
  - intro p. unfold NilBoolFlag, pflag.VarPF, newBoolValue.
    destruct p as [|[|[|]]]; cbn [pflag.String_ boolValue_Value
      boolValue.String_ boolValue.bool_ bind];
      destruct (AddFlag cmd name shorthand) as [[c n]|]; cbn [bind];
      split; intro H; try discriminate; reflexivity.
Qed.

(** X14: a default outside the constraint stays until a value is
    accepted: on the flag that [StringEnumFlag] or [StringRegexpFlag]
    returned for the default [d], a [Set] of a value outside the domain,
    or one the pattern does not match, returns an error and the flag
    still shows [d]. *)
Theorem default_survives_rejected_Set :
  forall (cmd cmd' : Command) (name shorthand usage old d v : string)
         (opts : list string) (pattern : regexp.Regexp),
    (forall f,
        StringEnumFlag cmd (addr old) name shorthand d opts usage = Done (cmd', f) ->
        ~ matchesFold opts v ->
        exists err,
          enumValue.Set_ (pflag.Val f) v = Done (pflag.Val f, Some err)
          /\ enumValue.String_ (pflag.Val f) = Done d)
    /\ (forall f,
        StringRegexpFlag cmd (addr old) name shorthand d (addr pattern) usage
        = Done (cmd', f) ->
        regexp.MatchString pattern v = false ->
        exists err,
          regexpValue.Set_ (pflag.Val f) v = Done (pflag.Val f, Some err)
          /\ regexpValue.String_ (pflag.Val f) = Done d).
Proof.
  intros cmd cmd' name shorthand usage old d v opts pattern. split.
  - intros f Hf H. apply StringEnumFlag_Val in Hf. rewrite Hf.
    apply not_included in H. eexists.
    unfold enumValue.Set_. simpl. rewrite H. split; reflexivity.
  - intros f Hf H. apply StringRegexpFlag_Val in Hf. rewrite Hf.
    eexists. unfold regexpValue.Set_. simpl. rewrite H. split; reflexivity.
Qed.

End Registered.

End Extras.

(** *** The properties above at concrete inputs *)

(** X1 at the options open, closed. *)
Lemma formatValuesForUsageDocs_injective_witness :
  formatValuesForUsageDocs ["open"; "closed"] = "{open|closed}"
  /\ ["open"; "closed"] = ["open"; "closed"].
Proof.
  split; [reflexivity |].
  apply (@formatValuesForUsageDocs_injective ["open"; "closed"] ["open"; "closed"]);
    try discriminate; try reflexivity; repeat constructor.
Defined.

(** X3 at the items b, A with options a, b. *)
Lemma enumMultiValue_Set_of_joined_witness :
  strings.Join ["b"; "A"] "," = "b,A"
  /\ enumMultiValue.Set_ (tables := asciiTables)
       (enumMultiValue.mk (addr []) ["a"; "b"]) (strings.Join ["b"; "A"] ",")
     = Done (enumMultiValue.mk (addr ["b"; "A"]) ["a"; "b"], None).
Proof.
  split; [reflexivity |].
  apply (@enumMultiValue_Set_of_joined asciiTables ["a"; "b"] [] ["b"; "A"]).
  - discriminate.
  - repeat constructor.
  - apply (rangeItems_None (enumMultiValue.mk (addr []) ["a"; "b"])). reflexivity.
Defined.

(** X4 at the value a,,b with options a, b and the empty option. *)
Lemma enumMultiValue_Set_items_witness :
  exists items,
    enumMultiValue.value (enumMultiValue.mk (addr ["a"; ""; "b"]) ["a"; "b"; ""])
    = addr items
    /\ List.length items = 3
    /\ Forall (fun item => occurs comma item = false) items.
Proof.
  apply (@enumMultiValue_Set_items asciiTables
           (enumMultiValue.mk (addr []) ["a"; "b"; ""])
           (enumMultiValue.mk (addr ["a"; ""; "b"]) ["a"; "b"; ""]) "a,,b").
  reflexivity.
Defined.

(** X5 at the target a, b with options a, b: [String()] shows {a, b} and
    [Set] of a, b is refused. *)
Lemma enumMultiValue_Set_of_rendering_witness :
  enumMultiValue.String_ (enumMultiValue.mk (addr ["a"; "b"]) ["a"; "b"])
  = Done "{a, b}"
  /\ enumMultiValue.Set_ (tables := asciiTables)
       (enumMultiValue.mk (addr ["a"; "b"]) ["a"; "b"]) "a, b"
     = Done (enumMultiValue.mk (addr ["a"; "b"]) ["a"; "b"],
             Some (errorString "valid values are {a|b}")).
Proof.
  apply (@enumMultiValue_Set_of_rendering asciiTables ["a"; "b"] "a" "b" []).
  - repeat constructor.
  - intro H. apply isIncluded_matchesFold in H. discriminate H.
Defined.

(** X6 at the value OPEN with options open, closed. *)
Lemma isIncluded_ascii_case_insensitive_witness :
  isIncluded (tables := asciiTables) "OPEN" ["open"; "closed"] = true
  <-> exists o, In o ["open"; "closed"] /\ spec_lowered o = spec_lowered "OPEN".
Proof.
  apply (@isIncluded_ascii_case_insensitive asciiTables "OPEN" ["open"; "closed"]).
  - reflexivity.
  - repeat constructor.
Defined.

(** X7 at the option Open of the options Open, Closed. *)
Lemma enumValue_Set_accepts_option_in_any_case_witness :
  enumValue.Set_ (tables := asciiTables)
    (enumValue.mk (addr "") ["Open"; "Closed"]) "Open"
  = Done (enumValue.mk (addr "Open") ["Open"; "Closed"], None)
  /\ enumValue.Set_ (tables := asciiTables)
       (enumValue.mk (addr "") ["Open"; "Closed"]) (spec_lowered "Open")
     = Done (enumValue.mk (addr (spec_lowered "Open")) ["Open"; "Closed"], None)
  /\ enumValue.Set_ (tables := asciiTables)
       (enumValue.mk (addr "") ["Open"; "Closed"]) (uppered "Open")
     = Done (enumValue.mk (addr (uppered "Open")) ["Open"; "Closed"], None).
Proof.
  apply (@enumValue_Set_accepts_option_in_any_case asciiTables
           ["Open"; "Closed"] "Open" "").
  - simpl. tauto.
  - reflexivity.
Defined.

(** X8 at a regexp adapter whose default none is outside the pattern:
    [Set] of 42 succeeds and the target then matches. *)
Lemma Set_keeps_constraint_witness :
  satisfies (tables := asciiTables)
    (RegexpString (regexpValue.mk (addr "none") (addr digits))) = false
  /\ satisfies (tables := asciiTables)
       (RegexpString (regexpValue.mk (addr "42") (addr digits))) = true.
Proof.
  split; [reflexivity |].
  apply (@Set_keeps_constraint asciiTables
           (RegexpString (regexpValue.mk (addr "none") (addr digits)))
           (RegexpString (regexpValue.mk (addr "42") (addr digits))) "42" None).
  - reflexivity.
  - left. reflexivity.
Defined.

(** X9 at the enum adapter with options a, b: after [Set] of a, [Set] of
    zz returns the error it returned before. *)
Lemma Set_outcome_ignores_target_witness :
  exists x',
    adapter_Set (tables := asciiTables)
      (EnumString (enumValue.mk (addr "a") ["a"; "b"])) "zz"
    = Done (x', Some (errorString "valid values are {a|b}")).
Proof.
  apply (@Set_outcome_ignores_target asciiTables
           (EnumString (enumValue.mk (addr "") ["a"; "b"]))
           (EnumString (enumValue.mk (addr "a") ["a"; "b"]))
           (EnumString (enumValue.mk (addr "") ["a"; "b"])) "a" "zz").
  - reflexivity.
  - reflexivity.
Defined.

(** X11 at the literal T. *)
Lemma boolValue_String_after_Set_witness :
  boolValue.String_ (boolValue.mk (addr (addr true))) = Done "true".
Proof.
  apply (@boolValue_String_after_Set
           (boolValue.mk (addr nil)) (boolValue.mk (addr (addr true))) "T").
  reflexivity.
Defined.

(** X14 at the default none, outside the options a, b and outside the
    pattern [^\d+$], and the rejected value zz. *)
Lemma default_survives_rejected_Set_witness :
  (exists err,
      enumValue.Set_ (tables := asciiTables)
        (enumValue.mk (addr "none") ["a"; "b"]) "zz"
      = Done (enumValue.mk (addr "none") ["a"; "b"], Some err)
      /\ enumValue.String_ (enumValue.mk (addr "none") ["a"; "b"]) = Done "none")
  /\ (exists err,
      regexpValue.Set_ (tables := asciiTables)
        (regexpValue.mk (addr "none") (addr digits)) "zz"
      = Done (regexpValue.mk (addr "none") (addr digits), Some err)
      /\ regexpValue.String_ (regexpValue.mk (addr "none") (addr digits))
         = Done "none").
Proof.
  split.
  - apply (proj1 (@default_survives_rejected_Set asciiTables flagSetHost
                    noFlags (mkFlagSet ["n"] ["s"%char] ["n"])
                    "n" "s" "u" "" "none" "zz" ["a"; "b"] digits)
             (pflag.mkFlag "n" "s" "u: {a|b}"
                (enumValue.mk (addr "none") ["a"; "b"]) "none" "")).
    + reflexivity.
    + intro H. apply isIncluded_matchesFold in H. discriminate H.
  - apply (proj2 (@default_survives_rejected_Set asciiTables flagSetHost
                    noFlags (mkFlagSet ["n"] ["s"%char] [])
                    "n" "s" "u" "" "none" "zz" ["a"; "b"] digits)
             (pflag.mkFlag "n" "s" "u"
                (regexpValue.mk (addr "none") (addr digits)) "none" "")).
    + reflexivity.
    + reflexivity.
Defined.

(** X12 at a command with no flag and an absent target. *)
Lemma NilBoolFlag_without_value_witness :
  boolValue.Set_ (boolValue.mk (addr nil)) "true"
  = Done (boolValue.mk (addr (addr true)), None).
Proof.
  apply (proj2 (@NilBoolFlag_without_value flagSetHost noFlags
                  (mkFlagSet ["draft"] ["d"%char] []) nil "draft" "d" "Mark as draft"
                  (pflag.mkFlag "draft" "d" "Mark as draft"
                     (boolValue.mk (addr nil)) "false" "true")
                  eq_refl)).
Defined.

(** X13 at a command with no flag: the returned flags are bound to nil. *)
Lemma constructors_and_nil_witness :
  pflag.Val (pflag.mkFlag "title" "t" "Title" (stringValue.mk nil) "" "")
  = stringValue.mk nil
  /\ pflag.Val (pflag.mkFlag "draft" "d" "Draft" (boolValue.mk nil) "false" "true")
     = boolValue.mk nil.
Proof.
  split.
  - apply (proj1 (@constructors_and_nil asciiTables flagSetHost noFlags
                    "title" "t" "Title" "" [] [] nil)
             nil (mkFlagSet ["title"] ["t"%char] [])).
    reflexivity.
  - apply (proj1 (proj2 (proj2 (@constructors_and_nil asciiTables flagSetHost noFlags
                    "draft" "d" "Draft" "" [] [] nil)))
             nil (mkFlagSet ["draft"] ["d"%char] [])).
    reflexivity.
Defined.

(** C7 at a command with no flag, with defaults outside the domain a, b
    and outside the pattern [^\d+$]. *)
Lemma C7_constructors_witness :
  StringEnumFlag (tables := asciiTables) (host := flagSetHost) noFlags (addr "")
    "state" "s" "zz" ["a"; "b"] "Filter by state"
  = Done (mkFlagSet ["state"] ["s"%char] ["state"],
          pflag.mkFlag "state" "s" "Filter by state: {a|b}"
            (enumValue.mk (addr "zz") ["a"; "b"]) "zz" "")
  /\ StringSliceEnumFlag (tables := asciiTables) (host := flagSetHost) noFlags
       (addr []) "label" "l" ["zz"; "a"] ["a"; "b"] "Labels"
     = Done (mkFlagSet ["label"] ["l"%char] ["label"],
             pflag.mkFlag "label" "l" "Labels: {a|b}"
               (enumMultiValue.mk (addr ["zz"; "a"]) ["a"; "b"]) "{zz, a}" "")
  /\ StringRegexpFlag (tables := asciiTables) (host := flagSetHost) noFlags
       (addr "") "count" "c" "none" (addr digits) "How many"
     = Done (mkFlagSet ["count"] ["c"%char] [],
             pflag.mkFlag "count" "c" "How many"
               (regexpValue.mk (addr "none") (addr digits)) "none" "").
Proof.
  split; [| split].
  - apply (proj1 (@C7_constructors_store_default_unchecked asciiTables flagSetHost
                    noFlags "state" "s" "Filter by state" ["a"; "b"] nil)
             (mkFlagSet ["state"] ["s"%char] []) "state"
             (mkFlagSet ["state"] ["s"%char] ["state"]) None "" "zz");
      reflexivity.
  - apply (proj1 (proj2 (@C7_constructors_store_default_unchecked asciiTables
                    flagSetHost noFlags "label" "l" "Labels" ["a"; "b"] nil))
             (mkFlagSet ["label"] ["l"%char] []) "label"
             (mkFlagSet ["label"] ["l"%char] ["label"]) None [] ["zz"; "a"]);
      reflexivity.
  - apply (proj1 (proj2 (proj2 (@C7_constructors_store_default_unchecked asciiTables
                    flagSetHost noFlags "count" "c" "How many" [] (addr digits))))
             (mkFlagSet ["count"] ["c"%char] []) "count" "" "none");
      reflexivity.
Defined.

(** X16 at the enum string-slice adapter with options a, b, c and the
    value a,b,bogus. *)
Lemma Set_error_keeps_target_witness :
  let a := EnumStringSlice (enumMultiValue.mk (addr ["c"]) ["a"; "b"; "c"]) in
  adapter_Set (tables := asciiTables) a "a,b,bogus"
  = Done (a, Some (errorString "valid values are {a|b|c}"))
  /\ a = a.
Proof.
  intro a. split; [reflexivity |].
  apply (@Set_error_keeps_target asciiTables a a "a,b,bogus"
           (errorString "valid values are {a|b|c}")).
  - intros b H. discriminate H.
  - reflexivity.
Defined.

(** X17 at the value yes and a target that holds true. *)
Lemma boolValue_Set_failure_writes_false_witness :
  boolValue.Set_ (boolValue.mk (addr (addr true))) "yes"
  = Done (boolValue.mk (addr (addr false)),
          Some (strconv.syntaxError "ParseBool" "yes")).
Proof.
  apply (@boolValue_Set_failure_writes_false (addr true) "yes").
  simpl. intuition discriminate.
Defined.
